(** * lab_6_pipeline/pipeline.py: corpus validation and annotation pipelines

    A shallow embedding of [CorpusManager], [TextProcessingPipeline],
    [UDPipeAnalyzer], [POSFrequencyPipeline] and [PatternSearchPipeline]
    of [src/lab_6_pipeline/pipeline.py], followed by the properties the
    specification states about them.

    Conventions.
    - A Python call that may raise is a value of [result]: [Ok v] or
      [Raise e] with [e] the exception.  Sequencing uses stdpp's monad
      notation ([x ← m; k]).
    - A [set(...)] of strings is a [gset string]; a histogram
      ([dict[str, int]]) is a [gmap string nat]; the corpus storage, whose
      iteration order the pipelines rely on, is an insertion-ordered
      association list ([dict_set]).
    - The file system is read through [pathlib]; a path is [Absent], a
      [NonDirectory] or a [Directory] listing its entries in the order
      [iterdir] yields them.  Every entry can be [stat]ed; name matching is
      case sensitive (POSIX). *)

From Stdlib Require Import String Ascii Arith Lia.
From Stdlib Require Import Decimal DecimalNat DecimalString.
From stdpp Require Import base option list sets gmap strings.

Local Open Scope string_scope.
Local Open Scope list_scope.

(** ** Python outcomes *)

(** Why an [InconsistentDatasetError] was raised: the four messages of
    [_validate_dataset], with the values its f-strings interpolate. *)
Inductive Inconsistency : Type :=
| AmountsNotEqual (n_meta n_raw : nat)
| MetaIdsInconsistent
| RawIdsInconsistent
| FileIsEmpty (filepath : string).

(** The exceptions of the module (the three classes it declares and the
    built-in ones it raises or lets through). [LibraryError] stands for
    whatever an external library raises. *)
Inductive exn : Type :=
| FileNotFoundError
| NotADirectoryError
| EmptyDirectoryError
| InconsistentDatasetError (why : Inconsistency)
| EmptyFileError
| ValueError
| IndexError
| TypeError
| AttributeError
| OSError
| LibraryError (what : string).

Inductive result (A : Type) : Type :=
| Ok (value : A)
| Raise (e : exn).

Arguments Ok {A} value.
Arguments Raise {A} e.

#[global] Instance result_ret : MRet result := fun A a => Ok a.
#[global] Instance result_bind : MBind result :=
  fun A B f m => match m with Ok a => f a | Raise e => Raise e end.
#[global] Instance result_fmap : FMap result :=
  fun A B f m => match m with Ok a => Ok (f a) | Raise e => Raise e end.

(** ** Strings *)

Module PyStr.

(** [s.endswith(suffix)]: some tail of [s] is [suffix]. *)
Fixpoint endswith (s suffix : string) : bool :=
  if String.eqb s suffix then true
  else match s with
       | EmptyString => false
       | String _ s' => endswith s' suffix
       end.

(** [f'{n}'] for a non-negative integer: its decimal digits. *)
Definition str (n : nat) : string := NilZero.string_of_uint (Nat.to_uint n).

(** [int(s)] on a string of decimal digits; [None] stands for the
    [ValueError] that anything else gives. *)
Definition int (s : string) : option nat :=
  Nat.of_uint <$> NilZero.uint_of_string s.

(** [s.split(sep)[0]]: the characters before the first [sep]. *)
Fixpoint split_head (sep : ascii) (s : string) : string :=
  match s with
  | EmptyString => EmptyString
  | String c s' => if Ascii.eqb c sep then EmptyString
                   else String c (split_head sep s')
  end.

(** [s.replace(old, new)] for a non-empty [old]: occurrences are replaced
    left to right and do not overlap.  [skip] counts the characters of
    the occurrence just replaced that are still to be dropped. *)
Fixpoint replace_from (old new : string) (skip : nat) (s : string) : string :=
  match s with
  | EmptyString => EmptyString
  | String c s' =>
      match skip with
      | S k => replace_from old new k s'
      | O => if String.prefix old s
             then new +:+ replace_from old new (String.length old - 1) s'
             else String c (replace_from old new 0 s')
      end
  end.

Definition replace (s old new : string) : string := replace_from old new 0 s.

(** Shell-style patterns as [pathlib.Path.glob] reads one path segment:
    [*] is any run of characters, [?] any one character, everything else
    stands for itself. *)
Inductive glob_item : Type :=
| Star
| AnyChar
| Lit (c : ascii).

Fixpoint translate (pattern : string) : list glob_item :=
  match pattern with
  | EmptyString => []
  | String c rest =>
      (if Ascii.eqb c "*" then Star
       else if Ascii.eqb c "?" then AnyChar
       else Lit c) :: translate rest
  end.

Fixpoint match_items (items : list glob_item) : string -> bool :=
  match items with
  | [] => fun s => String.eqb s EmptyString
  | Lit c :: items' =>
      fun s => match s with
               | String d s' => Ascii.eqb c d && match_items items' s'
               | EmptyString => false
               end
  | AnyChar :: items' =>
      fun s => match s with
               | String _ s' => match_items items' s'
               | EmptyString => false
               end
  | Star :: items' =>
      fix star (s : string) : bool :=
        match_items items' s
        || match s with
           | String _ s' => star s'
           | EmptyString => false
           end
  end.

Definition fnmatch (name pattern : string) : bool :=
  match_items (translate pattern) name.

End PyStr.

(** ** Insertion-ordered dictionaries *)

Section Dict.
Context {K V : Type} `{EqDecision K}.

(** [d[k] = v]: an existing key keeps its position, a new key goes last. *)
Fixpoint dict_set (d : list (K * V)) (k : K) (v : V) : list (K * V) :=
  match d with
  | [] => [(k, v)]
  | (k', v') :: d' =>
      if decide (k = k') then (k, v) :: d' else (k', v') :: dict_set d' k v
  end.

Definition keys (d : list (K * V)) : list K := d.*1.
Definition values (d : list (K * V)) : list V := d.*2.
End Dict.

(** ** Articles and the file system *)

(** Modelled from the spec: the [Article] class of [core_utils.article] is
    not part of the sources; section 3 gives it an integer id, the raw
    text, an optional annotation document and an optional POS-frequency
    histogram. *)
Record Article : Type := mkArticle {
  article_id : nat;
  text : string;
  _conllu_info : option string;
  pos_frequencies : option (gmap string nat)
}.

Definition set_text (a : Article) (t : string) : Article :=
  mkArticle (article_id a) t (_conllu_info a) (pos_frequencies a).

(** Modelled from the spec: [Article.set_conllu_info] attaches the
    annotation to the article (section 4.3). *)
Definition set_conllu_info (a : Article) (doc : string) : Article :=
  mkArticle (article_id a) (text a) (Some doc) (pos_frequencies a).

(** One entry of a directory: its name, the [st_size] that [stat] reports
    and what reading it as UTF-8 text gives ([None] when it cannot be read
    as such, for instance because it is a directory). *)
Record DirEntry : Type := mkEntry {
  name : string;
  st_size : nat;
  read_text : option string
}.

Inductive Path : Type :=
| Absent
| NonDirectory
| Directory (entries : list DirEntry).

Definition exists_ (p : Path) : bool :=
  match p with Absent => false | _ => true end.

Definition is_dir (p : Path) : bool :=
  match p with Directory _ => true | _ => false end.

Definition iterdir (p : Path) : list DirEntry :=
  match p with Directory entries => entries | _ => [] end.

(** [any(xs)] over objects that are all truthy, as [Path] objects are. *)
Definition any_truthy {A} (xs : list A) : bool :=
  match xs with [] => false | _ :: _ => true end.

(** [path.glob(pattern)] for a pattern of one segment. *)
Definition glob (p : Path) (pattern : string) : list DirEntry :=
  filter (fun e => PyStr.fnmatch (name e) pattern = true) (iterdir p).

(** Modelled from the spec: [get_article_id_from_filepath] of
    [core_utils.article.article] is not part of the sources; by section 4.1
    the numeric id is parsed from the filename prefix, which in the layout
    [<id>_raw.txt] of section 6 is what precedes the first underscore. *)
Definition numeric_prefix (filename : string) : option nat :=
  PyStr.int (PyStr.split_head "_" filename).

Definition get_article_id_from_filepath (filepath : DirEntry) : result nat :=
  match numeric_prefix (name filepath) with
  | Some article_id => Ok article_id
  | None => Raise ValueError
  end.

(** Modelled from the spec: [from_raw] of [core_utils.article.io] is not
    part of the sources; by section 4.1 it reads the raw-text file into an
    article carrying the id of the file. *)
Definition from_raw (filepath : DirEntry) : result Article :=
  article_id ← get_article_id_from_filepath filepath;
  match read_text filepath with
  | Some t => Ok (mkArticle article_id t None None)
  | None => Raise OSError
  end.

(** ** CorpusManager *)

Module CorpusManager.

Record t : Type := mk {
  path : Path;
  _storage : list (nat * Article)
}.

(** The first loop of [_validate_dataset]: names are appended to [meta]
    or, failing that, to [raw]. *)
Fixpoint classify (entries : list DirEntry) (meta raw : list string)
  : list string * list string :=
  match entries with
  | [] => (meta, raw)
  | filepath :: rest =>
      if PyStr.endswith (name filepath) "_meta.json"
      then classify rest (meta ++ [name filepath]) raw
      else if PyStr.endswith (name filepath) "_raw.txt"
      then classify rest meta (raw ++ [name filepath])
      else classify rest meta raw
  end.

(** [[f'{count}<suffix>' for count in range(1, n + 1)]] *)
Definition template (suffix : string) (n : nat) : list string :=
  (fun count => PyStr.str count +:+ suffix) <$> seq 1 n.

Definition set_of (names : list string) : gset string := list_to_set names.

(** The last loop of [_validate_dataset]. *)
Fixpoint check_sizes (entries : list DirEntry) : result unit :=
  match entries with
  | [] => Ok tt
  | filepath :: rest =>
      if Nat.eqb (st_size filepath) 0
      then Raise (InconsistentDatasetError (FileIsEmpty (name filepath)))
      else check_sizes rest
  end.

Definition _validate_dataset (path : Path) : result unit :=
  if negb (exists_ path) then Raise FileNotFoundError
  else if negb (is_dir path) then Raise NotADirectoryError
  else if negb (any_truthy (iterdir path)) then Raise EmptyDirectoryError
  else
    let '(meta, raw) := classify (iterdir path) [] [] in
    if negb (Nat.eqb (length meta) (length raw))
    then Raise (InconsistentDatasetError
                  (AmountsNotEqual (length meta) (length raw)))
    else
      let meta_template := template "_meta.json" (length meta) in
      if negb (bool_decide (set_of meta = set_of meta_template))
      then Raise (InconsistentDatasetError MetaIdsInconsistent)
      else
        let raw_template := template "_raw.txt" (length raw) in
        if negb (bool_decide (set_of raw = set_of raw_template))
        then Raise (InconsistentDatasetError RawIdsInconsistent)
        else check_sizes (iterdir path).

(** The dictionary comprehension of [_scan_dataset]: for each file the
    key is evaluated, then the value, then the pair is stored. *)
Fixpoint comprehension (files : list DirEntry) (acc : list (nat * Article))
  : result (list (nat * Article)) :=
  match files with
  | [] => Ok acc
  | filepath :: rest =>
      k ← get_article_id_from_filepath filepath;
      v ← from_raw filepath;
      comprehension rest (dict_set acc k v)
  end.

Definition _scan_dataset (path : Path) : result (list (nat * Article)) :=
  comprehension (glob path "*_raw.txt") [].

(** [CorpusManager(path_to_raw_txt_data)] *)
Definition __init__ (path_to_raw_txt_data : Path) : result t :=
  _ ← _validate_dataset path_to_raw_txt_data;
  storage ← _scan_dataset path_to_raw_txt_data;
  Ok (mk path_to_raw_txt_data storage).

Definition get_articles (self : t) : list (nat * Article) := _storage self.

End CorpusManager.

(** ** The assets directory as the pipelines use it *)

(** A regular file holding [content]. *)
Definition file (n : string) (content : string) : DirEntry :=
  mkEntry n (String.length content) (Some content).

(** [pathlib.Path(path).stat()]: the entry of that name, if any. *)
Definition stat (disk : list DirEntry) (path : string) : option DirEntry :=
  List.find (fun e => String.eqb (name e) path) disk.

(** [open(path, 'w').write(content)]: the file is replaced where it is, or
    created. *)
Fixpoint write (disk : list DirEntry) (path content : string) : list DirEntry :=
  match disk with
  | [] => [file path content]
  | e :: rest =>
      if String.eqb (name e) path then file path content :: rest
      else e :: write rest path content
  end.

Inductive ArtifactType : Type :=
| CLEANED
| UDPIPE_CONLLU.

(** Modelled from the spec: [Article.get_file_path] is not part of the
    sources; section 6 names the artifacts [<id>_cleaned.txt] and
    [<id>_<provider>_conllu]. *)
Definition get_file_path (a : Article) (kind : ArtifactType) : string :=
  match kind with
  | CLEANED => PyStr.str (article_id a) +:+ "_cleaned.txt"
  | UDPIPE_CONLLU => PyStr.str (article_id a) +:+ "_udpipe_conllu"
  end.

(** ** Annotated documents *)

(** Modelled from the spec: the document classes of the annotation
    libraries are not part of the sources; section 3 describes a document
    as a sequence of sentences, each an ordered sequence of words carrying
    a token id, a surface form, a universal POS tag, a head id and a
    relation label. *)
Record Word : Type := mkWord {
  word_id : nat;
  form : string;
  upos : string;
  head : nat;
  deprel : string
}.

Record Sentence : Type := mkSentence { words : list Word }.

Record CoNLLUDocument : Type := mkDocument { sentences : list Sentence }.

(** ** The analyzer interface *)

(** [LibraryWrapper]: what the pipelines call on an analyzer.  Methods
    that touch the assets directory take it and, when they write, return
    it. *)
Class LibraryWrapper (W : Type) : Type := {
  analyze : W -> list string -> result (list string);
  to_conllu : W -> Article -> list DirEntry -> result (list DirEntry);
  from_conllu : W -> Article -> list DirEntry -> result CoNLLUDocument
}.

(** The external annotation model behind [UDPipeAnalyzer._analyzer]: the
    CoNLL-U text it produces for a text, and what [ConllParser] built on it
    reads back from a file ([None] when the library gives up). *)
Record AbstractCoNLLUAnalyzer : Type := mkModel {
  conll_str : string -> string;
  parse_file_as_conll : DirEntry -> option CoNLLUDocument
}.

Definition newline : string := String (ascii_of_nat 10) EmptyString.

Module UDPipeAnalyzer.

Record t : Type := mk { _analyzer : AbstractCoNLLUAnalyzer }.

Definition analyze (self : t) (texts : list string) : result (list string) :=
  Ok ((fun text => conll_str (_analyzer self) text +:+ newline) <$> texts).

Definition to_conllu (self : t) (article : Article) (disk : list DirEntry)
  : result (list DirEntry) :=
  let path := get_file_path article UDPIPE_CONLLU in
  match _conllu_info article with
  | Some info => Ok (write disk path info)
  | None => Raise TypeError
  end.

Definition from_conllu (self : t) (article : Article) (disk : list DirEntry)
  : result CoNLLUDocument :=
  let conllu_path := get_file_path article UDPIPE_CONLLU in
  match stat disk conllu_path with
  | None => Raise FileNotFoundError
  | Some st =>
      if Nat.eqb (st_size st) 0 then Raise EmptyFileError
      else match parse_file_as_conll (_analyzer self) st with
           | Some doc => Ok doc
           | None => Raise (LibraryError "parse_file_as_conll")
           end
  end.

#[global] Instance wrapper : LibraryWrapper t :=
  Build_LibraryWrapper t analyze to_conllu from_conllu.

End UDPipeAnalyzer.

(** ** TextProcessingPipeline *)

(** The calls [run] makes on its collaborators, with the arguments as they
    are at the time of the call. *)
Inductive Call : Type :=
| Call_analyze (texts : list string)
| Call_to_cleaned (article : Article)
| Call_to_conllu (article : Article).

Module TextProcessingPipeline.

(** What [run] works on: the articles held by [self.corpus_manager]
    (they are updated in place), the assets directory and the calls made
    so far. *)
Record State : Type := mkState {
  articles : list (nat * Article);
  disk : list DirEntry;
  calls : list Call
}.

Definition log (c : Call) (st : State) : State :=
  mkState (articles st) (disk st) (calls st ++ [c]).

(** The [idx]-th article of the iteration is now [a]. *)
Definition update (idx : nat) (k : nat) (a : Article) (st : State) : State :=
  mkState (<[idx := (k, a)]> (articles st)) (disk st) (calls st).

(** Modelled from the spec: [to_cleaned] of [core_utils.article.io] is not
    part of the sources; by sections 4.3 and 6 it persists the text with
    the markers stripped as [<id>_cleaned.txt]. *)
Definition to_cleaned (a : Article) (st : State) : State :=
  log (Call_to_cleaned a)
    (mkState (articles st) (write (disk st) (get_file_path a CLEANED) (text a))
             (calls st)).

Section WithAnalyzer.
Context {W : Type} `{LibraryWrapper W}.

Record t : Type := mk {
  corpus_manager : CorpusManager.t;
  _analyzer : option W
}.

(** The [for idx, article in enumerate(...)] loop, from index [idx] on. *)
Fixpoint loop (analyzer : W) (conllu : list string) (idx : nat)
    (pending : list (nat * Article)) (st : State) : State * result unit :=
  match pending with
  | [] => (st, Ok tt)
  | (k, article) :: rest =>
      let article := set_text article (PyStr.replace (text article) "NBSP" "") in
      let st := update idx k article st in
      let st := to_cleaned article st in
      match conllu !! idx with
      | None => (st, Raise IndexError)
      | Some doc =>
          let article := set_conllu_info article doc in
          let st := update idx k article st in
          let st := log (Call_to_conllu article) st in
          match to_conllu analyzer article (disk st) with
          | Raise e => (st, Raise e)
          | Ok disk' =>
              loop analyzer conllu (S idx) rest
                   (mkState (articles st) disk' (calls st))
          end
      end
  end.

Definition run (self : t) (st : State) : State * result unit :=
  match _analyzer self with
  | None => (st, Raise AttributeError)
  | Some analyzer =>
      let texts := text <$> values (articles st) in
      let st := log (Call_analyze texts) st in
      match analyze analyzer texts with
      | Raise e => (st, Raise e)
      | Ok conllu => loop analyzer conllu 0 (articles st) st
      end
  end.

(** The state in which [run] starts: the storage of the corpus manager,
    a given assets directory, no call made yet. *)
Definition initial (self : t) (assets : list DirEntry) : State :=
  mkState (CorpusManager.get_articles (corpus_manager self)) assets [].

End WithAnalyzer.

Arguments t W : clear implicits.

End TextProcessingPipeline.

(** ** POSFrequencyPipeline *)

Module POSFrequencyPipeline.

(** [upos.count(pos)] *)
Definition count (upos : list string) (pos : string) : nat :=
  length (filter (fun x => x = pos) upos).

(** [{pos: upos.count(pos) for pos in upos}] *)
Definition comprehension (upos : list string) : gmap string nat :=
  foldl (fun d pos => <[pos := count upos pos]> d) ∅ upos.

(** The [for sentence in article_conllu.sentences] loop: each turn
    rebinds [pos_frequencies]. *)
Fixpoint loop (sents : list Sentence) (pos_frequencies : gmap string nat)
  : gmap string nat :=
  match sents with
  | [] => pos_frequencies
  | sentence :: rest =>
      let upos := upos <$> words sentence in
      let pos_frequencies := comprehension upos in
      loop rest pos_frequencies
  end.

Section WithAnalyzer.
Context {W : Type} `{LibraryWrapper W}.

Record t : Type := mk {
  _corpus : CorpusManager.t;
  _analyzer : W
}.

Definition _count_frequencies (self : t) (article : Article)
    (disk : list DirEntry) : result (gmap string nat) :=
  article_conllu ← from_conllu (_analyzer self) article disk;
  Ok (loop (sentences article_conllu) ∅).

End WithAnalyzer.

Arguments t W : clear implicits.

(** The histogram section 4.4 asks for, written after the specification
    and not after the code: every tag of the document with its number of
    occurrences in all the sentences together. *)
Definition document_histogram (doc : CoNLLUDocument) : gmap string nat :=
  comprehension (upos <$> concat (words <$> sentences doc)).

End POSFrequencyPipeline.

(** ** PatternSearchPipeline *)

(** Modelled from the spec: [networkx.DiGraph] and [TreeNode] of
    [core_utils.pipeline] are not part of the sources.  By section 3 a
    dependency graph has the word ids as nodes, labelled with their POS
    tag, and an edge from head to dependent labelled with the relation; by
    section 6 a match tree nests [{id, tag, children}]. *)
Record DiGraph : Type := mkGraph {
  nodes : list (nat * string);
  edges : list (nat * nat * string)
}.

#[warnings="-register-all"]
Inductive TreeNode : Type :=
| Node (node_id : nat) (tag : string) (children : list TreeNode).

Module PatternSearchPipeline.

(** [__init__] has no statement besides its docstring: the instance
    carries no attribute. *)
Record t : Type := mk { }.

(** The body of [_add_children] is its docstring alone: the method
    returns [None] and [tree_node] is as it was; this is [tree_node]
    after the call. *)
Definition _add_children (self : t) (graph : DiGraph)
    (subgraph_to_graph : list (nat * nat)) (node_id : nat)
    (tree_node : TreeNode) : TreeNode :=
  tree_node.

(** The body of [_find_pattern] is its docstring alone: the method
    returns [None], whatever the graphs. *)
Definition _find_pattern (self : t) (doc_graphs : list DiGraph)
  : option (list (nat * list TreeNode)) :=
  None.

(** Tree extraction as section 4.5 of the specification words it, for
    comparison with the methods above. *)
Module Spec.

Definition tag_of (g : DiGraph) (n : nat) : string :=
  default "" (snd <$> List.find (fun '(m, _) => Nat.eqb m n) (nodes g)).

Definition successors (g : DiGraph) (n : nat) : list nat :=
  omap (fun '(h, c, _) => if Nat.eqb h n then Some c else None) (edges g).

(** The node [n] with all it governs; [fuel] bounds the depth, and the
    number of nodes is enough in a tree. *)
Fixpoint subtree (fuel : nat) (g : DiGraph) (n : nat) : TreeNode :=
  match fuel with
  | O => Node n (tag_of g n) []
  | S fuel' => Node n (tag_of g n) (subtree fuel' g <$> successors g n)
  end.

Definition edge_matches (pattern : string * string * string) (g : DiGraph)
    (e : nat * nat * string) : bool :=
  let '(root_tag, relation, child_tag) := pattern in
  let '(h, c, label) := e in
  String.eqb (tag_of g h) root_tag && String.eqb label relation
  && String.eqb (tag_of g c) child_tag.

Definition match_trees (pattern : string * string * string) (g : DiGraph)
  : list TreeNode :=
  omap (fun e => if edge_matches pattern g e
                 then let '(h, c, _) := e in
                      Some (Node h (tag_of g h)
                              [subtree (length (nodes g)) g c])
                 else None)
       (edges g).

Definition find_pattern (pattern : string * string * string)
    (doc_graphs : list DiGraph) : list (nat * list TreeNode) :=
  imap (fun i g => (i, match_trees pattern g)) doc_graphs.

End Spec.

End PatternSearchPipeline.

(** ** Sample inputs *)

(** A well-formed corpus of two articles, listed in no particular order,
    with a derived file next to them. *)
Definition corpus2 : list DirEntry :=
  [file "2_raw.txt" "second"; file "1_meta.json" "{}";
   file "1_raw.txt" "first"; file "2_meta.json" "{}";
   file "1_cleaned.txt" "first"].

(** Two files in each family, but the raw ids are 1 and 3. *)
Definition corpus_gap : list DirEntry :=
  [file "1_meta.json" "{}"; file "2_meta.json" "{}";
   file "1_raw.txt" "first"; file "3_raw.txt" "third"].

(** One article whose raw file has no content. *)
Definition corpus_empty_raw : list DirEntry :=
  [file "1_meta.json" "{}"; file "1_raw.txt" ""].

(** One article and a derived cleaned-text file without content. *)
Definition corpus_empty_cleaned : list DirEntry :=
  [file "1_meta.json" "{}"; file "1_raw.txt" "first";
   file "1_cleaned.txt" ""].

(** A directory with a single unrelated file. *)
Definition corpus_unrelated : list DirEntry := [file "notes.md" "text"].

(** A document of two sentences: NOUN VERB, then ADJ. *)
Definition two_sentences : CoNLLUDocument :=
  mkDocument
    [mkSentence [mkWord 1 "kot" "NOUN" 2 "nsubj"; mkWord 2 "spit" "VERB" 0 "root"];
     mkSentence [mkWord 1 "tiho" "ADJ" 0 "root"]].

(** A stand-in for the annotation library: it marks up a text by putting
    it in brackets and reads every file back as [two_sentences]. *)
Definition stub_model : AbstractCoNLLUAnalyzer :=
  mkModel (fun text => "[" +:+ text +:+ "]") (fun _ => Some two_sentences).

Definition stub_udpipe : UDPipeAnalyzer.t := UDPipeAnalyzer.mk stub_model.

Definition article1 : Article := mkArticle 1 "first" None None.

(** Assets in which the annotation of article 1 is persisted. *)
Definition assets1 : list DirEntry :=
  [file "1_raw.txt" "first"; file "1_udpipe_conllu" "# text = first"].

(** The corpus manager of [corpus2], with a marker in the second text. *)
Definition manager2 : CorpusManager.t :=
  CorpusManager.mk (Directory corpus2)
    [(2, mkArticle 2 "secNBSPond" None None); (1, mkArticle 1 "first" None None)].

Definition pipeline2 : TextProcessingPipeline.t UDPipeAnalyzer.t :=
  TextProcessingPipeline.mk manager2 (Some stub_udpipe).

Definition frequency_pipeline : POSFrequencyPipeline.t UDPipeAnalyzer.t :=
  POSFrequencyPipeline.mk manager2 stub_udpipe.

(** Scenario C of section 8: the verb 1 governs the noun 3 through "obj";
    the noun governs a determiner 2 and a modifier 4. *)
Definition scenario_C : DiGraph :=
  mkGraph [(1, "VERB"); (2, "DET"); (3, "NOUN"); (4, "ADJ")]
          [(1, 3, "obj"); (3, 2, "det"); (3, 4, "amod")].

(** ** Notions the statements and their proofs use *)

(** The last character of a string; it tells the two families apart. *)
Fixpoint last_char (s : string) : option ascii :=
  match s with
  | EmptyString => None
  | String c EmptyString => Some c
  | String _ s' => last_char s'
  end.

(** No character of [s] is special in a pattern. *)
Fixpoint plain (s : string) : bool :=
  match s with
  | EmptyString => true
  | String c s' => negb (Ascii.eqb c "*") && negb (Ascii.eqb c "?") && plain s'
  end.

(** The two file families of section 4.1, by suffix. *)
Definition in_meta (e : DirEntry) : Prop :=
  PyStr.endswith (name e) "_meta.json" = true.

Definition in_raw (e : DirEntry) : Prop :=
  PyStr.endswith (name e) "_raw.txt" = true.

#[global] Instance in_meta_dec (e : DirEntry) : Decision (in_meta e).
Proof. unfold in_meta. apply _. Defined.

#[global] Instance in_raw_dec (e : DirEntry) : Decision (in_raw e).
Proof. unfold in_raw. apply _. Defined.

Definition meta_family (entries : list DirEntry) : list string :=
  name <$> filter in_meta entries.

Definition raw_family (entries : list DirEntry) : list string :=
  name <$> filter in_raw entries.

(** The numeric prefixes of the names are exactly the set {1, ..., count},
    [count] being the number of names; a prefix that is not a number is
    the element [None], which no such set has. *)
Definition ids_exact (names : list string) : Prop :=
  (list_to_set (numeric_prefix <$> names) : gset (option nat))
  = list_to_set (Some <$> seq 1 (length names)).

#[global] Instance ids_exact_dec (names : list string) : Decision (ids_exact names).
Proof. unfold ids_exact. apply _. Defined.

(** The checks of [_validate_dataset] on names and cardinalities pass. *)
Definition families_consistent (entries : list DirEntry) : Prop :=
  length (meta_family entries) = length (raw_family entries)
  /\ CorpusManager.set_of (meta_family entries)
     = CorpusManager.set_of
         (CorpusManager.template "_meta.json" (length (meta_family entries)))
  /\ CorpusManager.set_of (raw_family entries)
     = CorpusManager.set_of
         (CorpusManager.template "_raw.txt" (length (raw_family entries))).

(** What [TextProcessingPipeline.run] makes of an article: the marker is
    stripped from its text, then the annotation is attached. *)
Definition stripped (a : Article) : Article :=
  set_text a (PyStr.replace (text a) "NBSP" "").

Definition annotated (a : Article) (doc : string) : Article :=
  set_conllu_info (stripped a) doc.

(** The calls the loop of [run] makes for the articles, given the
    documents of the batch, in order. *)
Definition calls_for (arts : list (nat * Article)) (docs : list string)
  : list Call :=
  concat (zip_with (fun ka doc => [Call_to_cleaned (stripped ka.2);
                                   Call_to_conllu (annotated ka.2 doc)])
                   arts docs).

Definition is_analyze (c : Call) : bool :=
  match c with Call_analyze _ => true | _ => false end.

Definition analyze_calls (trace : list Call) : list Call :=
  List.filter is_analyze trace.

(** The contract of section 4.2 on an annotation provider: one document
    per input text, and persisting an annotated article succeeds. *)
Record honours_contract {W : Type} `{LibraryWrapper W} (w : W) : Prop := {
  one_document_per_text :
    forall texts, exists docs,
      analyze w texts = Ok docs /\ length docs = length texts;
  persist_succeeds :
    forall a disk, is_Some (_conllu_info a) ->
      exists disk', to_conllu w a disk = Ok disk'
}.

(** ** Further sample inputs and notions *)

(** Five articles of which the third has lost its raw file. *)
Definition corpus_five : list DirEntry :=
  file "3_meta.json" "{}"
  :: flat_map (fun n => [file (PyStr.str n +:+ "_meta.json") "{}";
                         file (PyStr.str n +:+ "_raw.txt") "text"])
              [1; 2; 4; 5].

(** [corpus2] with a cleaned-text file that is empty, listed before an
    empty raw file. *)
Definition corpus_two_empty : list DirEntry :=
  [file "2_raw.txt" "second"; file "1_cleaned.txt" ""; file "1_meta.json" "{}";
   file "1_raw.txt" ""; file "2_meta.json" "{}"].

(** [old] occurs somewhere in [s]. *)
Fixpoint occurs (old s : string) : bool :=
  String.prefix old s
  || match s with
     | EmptyString => false
     | String _ s' => occurs old s'
     end.

(** A test double of an analyzer that loses the last document of every
    batch; it persists and loads as [stub_udpipe] does. *)
Inductive LossyAnalyzer : Type := lossy.

#[global] Instance lossy_wrapper : LibraryWrapper LossyAnalyzer :=
  Build_LibraryWrapper LossyAnalyzer
    (fun _ texts => Ok (take (length texts - 1) texts))
    (fun _ => UDPipeAnalyzer.to_conllu stub_udpipe)
    (fun _ => UDPipeAnalyzer.from_conllu stub_udpipe).

Definition pipeline_lossy : TextProcessingPipeline.t LossyAnalyzer :=
  TextProcessingPipeline.mk manager2 (Some lossy).

(** What is left of the articles from the first one without a document:
    that one has been stripped, the others are as they were. *)
Definition unannotated (rest : list (nat * Article)) : list (nat * Article) :=
  match rest with
  | [] => []
  | (k, a) :: rest' => (k, stripped a) :: rest'
  end.

Definition last_cleaned (rest : list (nat * Article)) : list Call :=
  match rest with
  | [] => []
  | (_, a) :: _ => [Call_to_cleaned (stripped a)]
  end.

(** The keys of a storage with the ids of the articles under them, in
    iteration order. *)
Definition shape (arts : list (nat * Article)) : list (nat * nat) :=
  (fun ka => (ka.1, article_id ka.2)) <$> arts.

(** What [from_conllu] gives once it has found a non-empty artifact. *)
Definition parsed (self : UDPipeAnalyzer.t) (artifact : DirEntry)
  : result CoNLLUDocument :=
  match parse_file_as_conll (UDPipeAnalyzer._analyzer self) artifact with
  | Some doc => Ok doc
  | None => Raise (LibraryError "parse_file_as_conll")
  end.

(** The sum of the counts of a histogram. *)
Definition total (histogram : gmap string nat) : nat :=
  sum_list (map_to_list histogram).*2.

(** * Properties *)

(** ** The model at work *)

Example corpus2_accepted :
  keys <$> (CorpusManager.get_articles <$> CorpusManager.__init__ (Directory corpus2))
  = Ok [2; 1].
Proof. vm_compute. reflexivity. Qed.

Example corpus_gap_rejected :
  CorpusManager.__init__ (Directory corpus_gap)
  = Raise (InconsistentDatasetError RawIdsInconsistent).
Proof. vm_compute. reflexivity. Qed.

Example five_articles_without_third_raw :
  CorpusManager.__init__
    (Directory (file "3_meta.json" "{}"
                :: flat_map (fun n => [file (PyStr.str n +:+ "_meta.json") "{}";
                                       file (PyStr.str n +:+ "_raw.txt") "text"])
                            [1; 2; 4; 5]))
  = Raise (InconsistentDatasetError (AmountsNotEqual 5 4)).
Proof. vm_compute. reflexivity. Qed.

Example corpus_empty_raw_rejected :
  CorpusManager.__init__ (Directory corpus_empty_raw)
  = Raise (InconsistentDatasetError (FileIsEmpty "1_raw.txt")).
Proof. vm_compute. reflexivity. Qed.

Example replace_marker :
  PyStr.replace "aNBSPbNBSNBSPPc" "NBSP" "" = "abNBSPc".
Proof. reflexivity. Qed.

Example int_leading_zeros : PyStr.int "007" = Some 7.
Proof. reflexivity. Qed.

Example int_of_nothing : PyStr.int "" = None.
Proof. reflexivity. Qed.

Example glob_hidden_file : PyStr.fnmatch ".7_raw.txt" "*_raw.txt" = true.
Proof. reflexivity. Qed.

Example glob_other_case : PyStr.fnmatch "7_RAW.TXT" "*_raw.txt" = false.
Proof. reflexivity. Qed.

Example frequencies_of_one_sentence :
  POSFrequencyPipeline.comprehension ["NOUN"; "VERB"; "NOUN"]
  = {[ "NOUN" := 2; "VERB" := 1 ]}.
Proof. vm_compute. reflexivity. Qed.

(** ** Strings *)

Section StringFacts.

Import PyStr.

Lemma append_nil (s : string) : "" +:+ s = s.
Proof. done. Qed.

Lemma append_cons (c : ascii) (p s : string) :
  String c p +:+ s = String c (p +:+ s).
Proof. done. Qed.

Lemma endswith_refl (s : string) : endswith s s = true.
Proof. destruct s; simpl; rewrite ?Ascii.eqb_refl, ?String.eqb_refl; done. Qed.

Lemma endswith_unfold (s suffix : string) :
  endswith s suffix =
  String.eqb s suffix
  || match s with String _ s' => endswith s' suffix | EmptyString => false end.
Proof.
  destruct s as [|c s]; cbn [endswith];
    [destruct (String.eqb "" suffix)|destruct (String.eqb (String c s) suffix)];
    done.
Qed.

Lemma endswith_app (p suffix : string) : endswith (p +:+ suffix) suffix = true.
Proof.
  induction p as [|c p IH]; [apply endswith_refl|].
  change (String c p +:+ suffix) with (String c (p +:+ suffix)).
  rewrite endswith_unfold, IH. apply orb_true_r.
Qed.

Lemma endswith_inv (s suffix : string) :
  endswith s suffix = true -> exists p, s = p +:+ suffix.
Proof.
  induction s as [|c s IH]; rewrite endswith_unfold; intros Hs;
    apply orb_true_iff in Hs as [Heq|Hs]; try discriminate.
  - apply String.eqb_eq in Heq. by exists EmptyString.
  - apply String.eqb_eq in Heq. by exists EmptyString.
  - destruct (IH Hs) as [p ->]. by exists (String c p).
Qed.

Lemma last_char_app (p s : string) :
  s <> EmptyString -> last_char (p +:+ s) = last_char s.
Proof.
  intros Hs. induction p as [|c p IH]; [done|].
  change (String c p +:+ s) with (String c (p +:+ s)).
  simpl. destruct (p +:+ s) eqn:E; [|exact IH].
  destruct p; cbv [String.append] in E; [congruence|discriminate].
Qed.

Lemma endswith_last_char (s suffix : string) :
  suffix <> EmptyString -> endswith s suffix = true ->
  last_char s = last_char suffix.
Proof.
  intros Hne Hs. destruct (endswith_inv _ _ Hs) as [p ->].
  by apply last_char_app.
Qed.

(** A name cannot belong to both families. *)
Lemma raw_not_meta (n : string) :
  endswith n "_raw.txt" = true -> endswith n "_meta.json" = false.
Proof.
  intros Hraw. destruct (endswith n "_meta.json") eqn:Hmeta; [|done].
  apply endswith_last_char in Hraw; [|done].
  apply endswith_last_char in Hmeta; [|done].
  rewrite Hraw in Hmeta. discriminate.
Qed.

(** *** Patterns *)

Lemma match_items_plain (pattern s : string) :
  plain pattern = true ->
  match_items (translate pattern) s = String.eqb s pattern.
Proof.
  revert s. induction pattern as [|c pattern IH]; intros s Hp.
  - by destruct s.
  - simpl in Hp. apply andb_true_iff in Hp as [Hc Hp].
    apply andb_true_iff in Hc as [Hstar Hany].
    apply negb_true_iff in Hstar, Hany.
    simpl. rewrite Hstar, Hany. destruct s as [|d s]; [done|].
    simpl. rewrite IH by done. rewrite (Ascii.eqb_sym c d).
    by destruct (Ascii.eqb d c).
Qed.

(** A star followed by plain characters asks for a suffix. *)
Lemma fnmatch_star_plain (n suffix : string) :
  plain suffix = true ->
  fnmatch n (String "*" suffix) = endswith n suffix.
Proof.
  intros Hp. unfold fnmatch.
  change (translate (String "*" suffix)) with (Star :: translate suffix).
  induction n as [|c n IH]; rewrite endswith_unfold.
  - change (match_items (Star :: translate suffix) "")
      with (match_items (translate suffix) "" || false).
    by rewrite match_items_plain.
  - change (match_items (Star :: translate suffix) (String c n))
      with (match_items (translate suffix) (String c n)
            || match_items (Star :: translate suffix) n).
    by rewrite match_items_plain, IH.
Qed.

Lemma glob_raw_is_suffix (n : string) :
  fnmatch n "*_raw.txt" = endswith n "_raw.txt".
Proof. by apply fnmatch_star_plain. Qed.

(** *** Decimal numerals *)

Lemma to_uint_not_Nil (n : nat) : Nat.to_uint n <> Nil.
Proof.
  intros Hn. pose proof (Unsigned.to_of (Nat.to_uint n)) as E.
  rewrite Unsigned.of_to, Hn in E. discriminate.
Qed.

Lemma int_str (n : nat) : int (str n) = Some n.
Proof.
  unfold int, str. rewrite NilZero.usu by apply to_uint_not_Nil.
  simpl. by rewrite Unsigned.of_to.
Qed.

Lemma split_head_digits (d : uint) (rest : string) :
  split_head "_" (NilEmpty.string_of_uint d +:+ String "_" rest)
  = NilEmpty.string_of_uint d.
Proof.
  induction d as [|d IH|d IH|d IH|d IH|d IH|d IH|d IH|d IH|d IH|d IH];
    cbn [NilEmpty.string_of_uint]; rewrite ?append_cons, ?append_nil;
    cbn [split_head]; [done|..];
    (replace (Ascii.eqb _ "_") with false by done); by rewrite IH.
Qed.

Lemma split_head_str (n : nat) (rest : string) :
  split_head "_" (str n +:+ String "_" rest) = str n.
Proof.
  unfold str, NilZero.string_of_uint.
  destruct (Nat.to_uint n) eqn:E; try apply split_head_digits.
  by apply to_uint_not_Nil in E.
Qed.

Lemma numeric_prefix_template (n : nat) (rest : string) :
  numeric_prefix (str n +:+ String "_" rest) = Some n.
Proof. unfold numeric_prefix. by rewrite split_head_str, int_str. Qed.

End StringFacts.

(** ** Dictionaries *)

Section DictFacts.
Context {K V : Type} `{EqDecision K}.
Implicit Types (d : list (K * V)) (k : K) (v : V).

Lemma elem_of_keys_dict_set d k v k' :
  k' ∈ keys (dict_set d k v) <-> k' = k \/ k' ∈ keys d.
Proof.
  unfold keys. induction d as [|[k0 v0] d IH]; simpl.
  - rewrite list_elem_of_singleton, elem_of_nil. tauto.
  - case_decide; subst; simpl; rewrite !elem_of_cons; [tauto|].
    rewrite IH. tauto.
Qed.

Lemma NoDup_keys_dict_set d k v :
  NoDup (keys d) -> NoDup (keys (dict_set d k v)).
Proof.
  unfold keys. induction d as [|[k0 v0] d IH]; simpl; intros Hd.
  - apply NoDup_singleton.
  - apply NoDup_cons in Hd as [Hk0 Hd].
    case_decide; subst; simpl; apply NoDup_cons; [done|].
    split; [|by apply IH].
    intros Hin. apply (elem_of_keys_dict_set d k v k0) in Hin as [?|?]; done.
Qed.

Lemma elem_of_dict_set d k v k' v' :
  (k', v') ∈ dict_set d k v -> (k', v') = (k, v) \/ (k', v') ∈ d.
Proof.
  induction d as [|[k0 v0] d IH]; simpl.
  - rewrite list_elem_of_singleton. tauto.
  - case_decide; subst; rewrite !elem_of_cons; [tauto|].
    intros [?|Hin]; [tauto|]. destruct (IH Hin); tauto.
Qed.

End DictFacts.

(** ** CorpusManager *)

Section CorpusManagerFacts.

Import PyStr CorpusManager.

Lemma classify_families (entries : list DirEntry) (meta raw : list string) :
  classify entries meta raw
  = ((meta ++ meta_family entries)%list, (raw ++ raw_family entries)%list).
Proof.
  unfold meta_family, raw_family.
  revert meta raw. induction entries as [|e entries IH]; intros meta raw.
  - simpl. by rewrite !app_nil_r.
  - cbn [classify]. destruct (decide (in_meta e)) as [Hm|Hm].
    + assert (Hr : ~ in_raw e).
      { intros Hr. apply raw_not_meta in Hr. unfold in_meta in Hm. congruence. }
      rewrite (filter_cons_True in_meta), (filter_cons_False in_raw) by done.
      unfold in_meta in Hm. rewrite Hm, IH.
      cbn [fmap list_fmap]. by rewrite <- app_assoc.
    + rewrite (filter_cons_False in_meta) by done.
      unfold in_meta in Hm. apply not_true_is_false in Hm. rewrite Hm.
      destruct (decide (in_raw e)) as [Hr|Hr].
      * rewrite (filter_cons_True in_raw) by done.
        unfold in_raw in Hr. rewrite Hr, IH.
        cbn [fmap list_fmap]. by rewrite <- app_assoc.
      * rewrite (filter_cons_False in_raw) by done.
        unfold in_raw in Hr. apply not_true_is_false in Hr. by rewrite Hr, IH.
Qed.

(** [_validate_dataset] on a directory that has entries. *)
Lemma validate_directory (e : DirEntry) (entries : list DirEntry) :
  let es := e :: entries in
  _validate_dataset (Directory es) =
  if negb (Nat.eqb (length (meta_family es)) (length (raw_family es)))
  then Raise (InconsistentDatasetError
                (AmountsNotEqual (length (meta_family es))
                                 (length (raw_family es))))
  else if negb (bool_decide
                  (set_of (meta_family es)
                   = set_of (template "_meta.json" (length (meta_family es)))))
  then Raise (InconsistentDatasetError MetaIdsInconsistent)
  else if negb (bool_decide
                  (set_of (raw_family es)
                   = set_of (template "_raw.txt" (length (raw_family es)))))
  then Raise (InconsistentDatasetError RawIdsInconsistent)
  else check_sizes es.
Proof.
  intros es. unfold _validate_dataset.
  cbn [exists_ is_dir iterdir any_truthy negb].
  by rewrite classify_families.
Qed.

Lemma check_sizes_zero (entries : list DirEntry) (e : DirEntry) :
  e ∈ entries -> st_size e = 0 ->
  exists f, check_sizes entries = Raise (InconsistentDatasetError (FileIsEmpty f)).
Proof.
  induction entries as [|e0 entries IH]; intros Hin Hz.
  - by apply elem_of_nil in Hin.
  - cbn [check_sizes]. destruct (Nat.eqb (st_size e0) 0) eqn:E; [by eexists|].
    apply elem_of_cons in Hin as [->|Hin]; [|by apply IH].
    rewrite Hz in E. discriminate.
Qed.

Lemma check_sizes_nonzero (entries : list DirEntry) :
  Forall (fun e => st_size e <> 0) entries -> check_sizes entries = Ok tt.
Proof.
  induction 1 as [|e entries He _ IH]; [done|].
  cbn [check_sizes]. by apply Nat.eqb_neq in He as ->.
Qed.

(** A zero-length entry, whatever its name, makes validation raise
    [InconsistentDatasetError]. *)
Lemma validate_zero_size (entries : list DirEntry) (e : DirEntry) :
  e ∈ entries -> st_size e = 0 ->
  exists why,
    _validate_dataset (Directory entries) = Raise (InconsistentDatasetError why).
Proof.
  intros Hin Hz. destruct entries as [|e0 entries]; [by apply elem_of_nil in Hin|].
  rewrite validate_directory. cbv zeta.
  repeat (match goal with |- context [if ?b then _ else _] => destruct b end;
          [by eexists|]).
  destruct (check_sizes_zero _ _ Hin Hz) as [f ->]. by eexists.
Qed.

Lemma validate_zero_size_consistent (entries : list DirEntry) (e : DirEntry) :
  e ∈ entries -> st_size e = 0 -> families_consistent entries ->
  exists f,
    _validate_dataset (Directory entries)
    = Raise (InconsistentDatasetError (FileIsEmpty f)).
Proof.
  intros Hin Hz (Hlen & Hmeta & Hraw).
  destruct entries as [|e0 entries]; [by apply elem_of_nil in Hin|].
  rewrite validate_directory. cbv zeta.
  rewrite (bool_decide_eq_true_2 _ Hmeta), (bool_decide_eq_true_2 _ Hraw).
  rewrite Hlen, Nat.eqb_refl. cbn [negb].
  by apply (check_sizes_zero _ e).
Qed.

Lemma init_raise (p : Path) (e : exn) :
  _validate_dataset p = Raise e -> __init__ p = Raise e.
Proof. unfold __init__. by intros ->. Qed.

Lemma init_inconsistent (p : Path) :
  (exists why, _validate_dataset p = Raise (InconsistentDatasetError why)) ->
  exists why, __init__ p = Raise (InconsistentDatasetError why).
Proof. intros [why Hv]. exists why. by apply init_raise. Qed.

Lemma init_ok (p : Path) (cm : t) :
  __init__ p = Ok cm ->
  _validate_dataset p = Ok tt
  /\ _scan_dataset p = Ok (get_articles cm) /\ path cm = p.
Proof.
  unfold __init__. destruct (_validate_dataset p) as [[]|]; [|done].
  cbn. destruct (_scan_dataset p) as [storage|]; [|done].
  cbn. by intros [= <-].
Qed.

(** *** Templates and numeric prefixes *)

Lemma length_template (suffix : string) (n : nat) :
  length (template suffix n) = n.
Proof. unfold template. by rewrite length_fmap, length_seq. Qed.

Lemma prefixes_of_template (rest : string) (n : nat) :
  numeric_prefix <$> template (String "_" rest) n = Some <$> seq 1 n.
Proof.
  unfold template. rewrite <- list_fmap_compose.
  apply list_fmap_ext. intros _ k _. apply numeric_prefix_template.
Qed.

Lemma set_of_elem (l1 l2 : list string) (x : string) :
  set_of l1 = set_of l2 -> x ∈ l1 -> x ∈ l2.
Proof.
  unfold set_of. intros Heq Hx.
  apply (elem_of_list_to_set (C := gset string)).
  rewrite <- Heq. by apply elem_of_list_to_set.
Qed.

(** Names that are, as a set, the template have exactly the ids
    1, ..., count. *)
Lemma template_ids_exact (names : list string) (rest : string) :
  set_of names = set_of (template (String "_" rest) (length names)) ->
  ids_exact names.
Proof.
  intros Heq. unfold ids_exact. rewrite <- (prefixes_of_template rest).
  apply set_eq. intros x. rewrite !elem_of_list_to_set, !list_elem_of_fmap.
  split; intros (y & -> & Hy); exists y; (split; [done|]).
  - by apply (set_of_elem _ _ _ Heq).
  - by apply (set_of_elem _ _ _ (eq_sym Heq)).
Qed.

(** *** The dictionary comprehension of [_scan_dataset] *)

Lemma comprehension_spec (files : list DirEntry) (acc d : list (nat * Article)) :
  comprehension files acc = Ok d ->
  (forall k, k ∈ keys d <->
             k ∈ keys acc \/ exists e, e ∈ files /\ numeric_prefix (name e) = Some k)
  /\ (NoDup (keys acc) -> NoDup (keys d))
  /\ (forall k a, (k, a) ∈ d ->
                  (k, a) ∈ acc
                  \/ exists e, e ∈ files /\ numeric_prefix (name e) = Some k
                               /\ from_raw e = Ok a).
Proof.
  revert acc. induction files as [|e files IH]; intros acc.
  - intros [= <-]. split; [|split]; [|done|by left].
    intros k. split; [by left|]. intros [?|(e & He & _)]; [done|].
    by apply elem_of_nil in He.
  - cbn [comprehension].
    destruct (get_article_id_from_filepath e) as [k0|] eqn:Hk0; [|done].
    cbn. destruct (from_raw e) as [v|] eqn:Hv; [|done].
    cbn. intros Hd. destruct (IH _ Hd) as (Hkeys & Hnodup & Helems).
    assert (Hp : numeric_prefix (name e) = Some k0).
    { unfold get_article_id_from_filepath in Hk0.
      destruct (numeric_prefix (name e)); congruence. }
    split; [|split].
    + intros k. rewrite Hkeys, elem_of_keys_dict_set. split.
      * intros [[->|?]|(e' & He' & ?)]; [right|by left|right].
        -- exists e. split; [apply elem_of_cons; by left|done].
        -- exists e'. split; [apply elem_of_cons; by right|done].
      * intros [?|(e' & He' & Hp')]; [by left; right|].
        apply elem_of_cons in He' as [->|He'].
        -- left; left. congruence.
        -- right. by exists e'.
    + intros Hacc. by apply Hnodup, NoDup_keys_dict_set.
    + intros k a Hin. destruct (Helems k a Hin) as [Hin'|(e' & He' & ? & ?)].
      * apply elem_of_dict_set in Hin' as [[= -> ->]|?]; [right|by left].
        exists e. split; [apply elem_of_cons; by left|done].
      * right. exists e'. split; [apply elem_of_cons; by right|done].
Qed.

Lemma glob_raw (entries : list DirEntry) :
  glob (Directory entries) "*_raw.txt" = filter in_raw entries.
Proof.
  unfold glob. cbn [iterdir]. induction entries as [|e entries IH]; [done|].
  rewrite !filter_cons, IH. unfold in_raw.
  destruct (decide (fnmatch (name e) "*_raw.txt" = true)) as [Hg|Hg];
    rewrite glob_raw_is_suffix in Hg.
  - by rewrite decide_True.
  - by rewrite decide_False.
Qed.

Lemma filter_none {A} (P : A -> Prop) `{forall x, Decision (P x)} (l : list A) :
  Forall (fun x => ~ P x) l -> filter P l = [].
Proof.
  induction 1 as [|x l Hx _ IH]; [done|]. by rewrite filter_cons_False.
Qed.

End CorpusManagerFacts.

(** ** What the specification says of [CorpusManager] *)

(** Settles a decidable statement about a concrete input by running its
    decision procedure. *)
Ltac by_evaluation :=
  lazymatch goal with
  | |- ~ ?P => apply (bool_decide_eq_false_1 P); vm_compute; reflexivity
  | |- ?P => apply (bool_decide_eq_true_1 P); vm_compute; reflexivity
  end.

(** C7: construction raises [FileNotFoundError] (the specification's
    PathNotFoundFault) when the path does not exist, [NotADirectoryError]
    when it exists and is not a directory, and [EmptyDirectoryError]
    (EmptyDatasetFault) when the directory has no entries; these checks
    come before the family checks: an [InconsistentDatasetError] is only
    ever raised for a directory that has entries. *)
Theorem C7_path_faults (p : Path) :
  (exists_ p = false -> CorpusManager.__init__ p = Raise FileNotFoundError)
  /\ (exists_ p = true -> is_dir p = false ->
      CorpusManager.__init__ p = Raise NotADirectoryError)
  /\ (is_dir p = true -> iterdir p = [] ->
      CorpusManager.__init__ p = Raise EmptyDirectoryError)
  /\ (forall why,
        CorpusManager.__init__ p = Raise (InconsistentDatasetError why) ->
        exists e entries, p = Directory (e :: entries)).
Proof.
  destruct p as [| |[|e entries]]; repeat split; try done.
  intros why _. by exists e, entries.
Qed.

Lemma C7_path_faults_witness :
  CorpusManager.__init__ Absent = Raise FileNotFoundError
  /\ CorpusManager.__init__ NonDirectory = Raise NotADirectoryError
  /\ CorpusManager.__init__ (Directory []) = Raise EmptyDirectoryError.
Proof.
  split; [|split].
  - apply (C7_path_faults Absent). reflexivity.
  - apply (C7_path_faults NonDirectory); reflexivity.
  - apply (C7_path_faults (Directory [])); reflexivity.
Defined.

(** C3: construction raises [InconsistentDatasetError] when the meta and
    raw families differ in size, or when the numeric prefixes of either
    family are not exactly the set {1, ..., count} -- a gap or a repeated
    id is caught even when both families have the same size. *)
Theorem C3_inconsistent_families (entries : list DirEntry) :
  length (meta_family entries) <> length (raw_family entries)
  \/ ~ ids_exact (meta_family entries)
  \/ ~ ids_exact (raw_family entries) ->
  exists why,
    CorpusManager.__init__ (Directory entries)
    = Raise (InconsistentDatasetError why).
Proof.
  intros Hbad. destruct entries as [|e entries].
  { exfalso. destruct Hbad as [?|[Hm|Hr]]; [done|apply Hm|apply Hr]; done. }
  apply init_inconsistent. rewrite validate_directory. cbv zeta.
  destruct (Nat.eqb (length (meta_family (e :: entries)))
                    (length (raw_family (e :: entries)))) eqn:Hlen;
    cbn [negb]; [|by eexists].
  case_bool_decide as Hmeta; cbn [negb]; [|by eexists].
  case_bool_decide as Hraw; cbn [negb]; [|by eexists].
  exfalso. apply Nat.eqb_eq in Hlen.
  destruct Hbad as [?|[Hm|Hr]]; [done| |].
  - by apply Hm, (template_ids_exact _ "meta.json").
  - by apply Hr, (template_ids_exact _ "raw.txt").
Qed.

Lemma C3_inconsistent_families_witness :
  length (meta_family corpus_gap) = length (raw_family corpus_gap)
  /\ ~ ids_exact (raw_family corpus_gap)
  /\ exists why,
       CorpusManager.__init__ (Directory corpus_gap)
       = Raise (InconsistentDatasetError why).
Proof.
  assert (Hgap : ~ ids_exact (raw_family corpus_gap)).
  { by_evaluation. }
  split; [reflexivity|]. split; [exact Hgap|].
  apply (C3_inconsistent_families corpus_gap). right; right. exact Hgap.
Defined.

(** C6: a zero-length file of the meta or of the raw family makes
    construction raise [InconsistentDatasetError]; when the checks on
    names and cardinalities pass, it is the error of the size check. *)
Theorem C6_empty_family_file (entries : list DirEntry) (e : DirEntry) :
  e ∈ entries -> in_meta e \/ in_raw e -> st_size e = 0 ->
  (exists why,
     CorpusManager.__init__ (Directory entries)
     = Raise (InconsistentDatasetError why))
  /\ (families_consistent entries ->
      exists f,
        CorpusManager.__init__ (Directory entries)
        = Raise (InconsistentDatasetError (FileIsEmpty f))).
Proof.
  intros Hin _ Hz. split.
  - by apply init_inconsistent, (validate_zero_size _ e).
  - intros Hc. destruct (validate_zero_size_consistent _ e Hin Hz Hc) as [f Hf].
    exists f. by apply init_raise.
Qed.

Lemma C6_empty_family_file_witness :
  families_consistent corpus_empty_raw
  /\ exists f,
       CorpusManager.__init__ (Directory corpus_empty_raw)
       = Raise (InconsistentDatasetError (FileIsEmpty f)).
Proof.
  assert (Hc : families_consistent corpus_empty_raw).
  { repeat split; by_evaluation. }
  split; [exact Hc|].
  apply (C6_empty_family_file corpus_empty_raw (file "1_raw.txt" "")).
  - repeat constructor.
  - right. reflexivity.
  - reflexivity.
  - exact Hc.
Defined.

(** C9: the size check looks at every entry of the directory: a
    zero-length file that belongs to neither family (a derived
    cleaned-text file, say) makes construction raise
    [InconsistentDatasetError] all the same. *)
Theorem C9_empty_other_file (entries : list DirEntry) (e : DirEntry) :
  e ∈ entries -> ~ in_meta e -> ~ in_raw e -> st_size e = 0 ->
  exists why,
    CorpusManager.__init__ (Directory entries)
    = Raise (InconsistentDatasetError why).
Proof.
  intros Hin _ _ Hz. by apply init_inconsistent, (validate_zero_size _ e).
Qed.

Lemma C9_empty_other_file_witness :
  exists why,
    CorpusManager.__init__ (Directory corpus_empty_cleaned)
    = Raise (InconsistentDatasetError why).
Proof.
  apply (C9_empty_other_file corpus_empty_cleaned (file "1_cleaned.txt" "")).
  - repeat constructor.
  - by_evaluation.
  - by_evaluation.
  - reflexivity.
Defined.

(** C10: a directory that has entries, all of non-zero length and none in
    the meta or the raw family, is accepted, and [get_articles] is the
    empty dictionary. *)
Theorem C10_no_family_files (entries : list DirEntry) :
  entries <> [] ->
  Forall (fun e => st_size e <> 0 /\ ~ in_meta e /\ ~ in_raw e) entries ->
  exists cm,
    CorpusManager.__init__ (Directory entries) = Ok cm
    /\ CorpusManager.get_articles cm = [].
Proof.
  intros Hne Hall. destruct entries as [|e entries]; [done|].
  assert (Hmeta : meta_family (e :: entries) = []).
  { unfold meta_family. rewrite filter_none; [done|].
    eapply Forall_impl; [exact Hall|]. by intros x (_ & ? & _). }
  assert (Hraw : raw_family (e :: entries) = []).
  { unfold raw_family. rewrite filter_none; [done|].
    eapply Forall_impl; [exact Hall|]. by intros x (_ & _ & ?). }
  assert (Hv : CorpusManager._validate_dataset (Directory (e :: entries)) = Ok tt).
  { rewrite validate_directory. cbv zeta. rewrite Hmeta, Hraw.
    cbn [length Nat.eqb negb].
    rewrite !bool_decide_eq_true_2 by reflexivity. cbn [negb].
    apply check_sizes_nonzero.
    eapply Forall_impl; [exact Hall|]. by intros x (? & _). }
  assert (Hs : CorpusManager._scan_dataset (Directory (e :: entries)) = Ok []).
  { unfold CorpusManager._scan_dataset. rewrite glob_raw.
    unfold raw_family in Hraw. apply fmap_nil_inv in Hraw. by rewrite Hraw. }
  exists (CorpusManager.mk (Directory (e :: entries)) []).
  unfold CorpusManager.__init__. by rewrite Hv, Hs.
Qed.

Lemma C10_no_family_files_witness :
  exists cm,
    CorpusManager.__init__ (Directory corpus_unrelated) = Ok cm
    /\ CorpusManager.get_articles cm = [].
Proof.
  apply (C10_no_family_files corpus_unrelated); [done|].
  repeat constructor; try done;
    by_evaluation.
Defined.

(** When validation passes, the raw names are, as a set, the raw template. *)
Lemma validate_ok_raw (entries : list DirEntry) :
  CorpusManager._validate_dataset (Directory entries) = Ok tt ->
  CorpusManager.set_of (raw_family entries)
  = CorpusManager.set_of
      (CorpusManager.template "_raw.txt" (length (raw_family entries))).
Proof.
  destruct entries as [|e entries]; [done|].
  rewrite validate_directory. cbv zeta.
  destruct (negb (Nat.eqb _ _)); [done|].
  case_bool_decide; cbn [negb]; [|done].
  case_bool_decide; cbn [negb]; done.
Qed.

(** C4: when construction succeeds on a directory with N raw-text files,
    the keys of [get_articles] are exactly 1, ..., N, each once, and every
    key is the number parsed from the prefix of the raw-text file whose
    content the article under that key holds. *)
Theorem C4_article_ids (entries : list DirEntry) (cm : CorpusManager.t) :
  CorpusManager.__init__ (Directory entries) = Ok cm ->
  let N := length (raw_family entries) in
  let ids := keys (CorpusManager.get_articles cm) in
  (forall k, k ∈ ids <-> (1 <= k <= N)%nat)
  /\ NoDup ids
  /\ length ids = N
  /\ (forall k a, (k, a) ∈ CorpusManager.get_articles cm ->
        exists e, e ∈ entries /\ in_raw e
                  /\ numeric_prefix (name e) = Some k /\ from_raw e = Ok a).
Proof.
  intros Hinit N ids. apply init_ok in Hinit as (Hv & Hs & _).
  unfold CorpusManager._scan_dataset in Hs. rewrite glob_raw in Hs.
  apply comprehension_spec in Hs as (Hkeys & Hnodup & Helems).
  apply validate_ok_raw, (template_ids_exact _ "raw.txt") in Hv.
  assert (Hids : forall k, k ∈ ids <-> (1 <= k <= N)%nat).
  { intros k. subst ids. rewrite Hkeys. unfold keys at 1. cbn [fmap list_fmap].
    transitivity (Some k ∈ numeric_prefix <$> raw_family entries).
    - unfold raw_family. rewrite <- list_fmap_compose, list_elem_of_fmap.
      split.
      + intros [Hnil|(e & He & Hp)]; [by apply elem_of_nil in Hnil|].
        by exists e.
      + intros (e & Hp & He). right. by exists e.
    - rewrite <- (elem_of_list_to_set (C := gset (option nat))), Hv.
      rewrite elem_of_list_to_set, list_elem_of_fmap. fold N. split.
      + intros (j & [= ->] & Hj). apply elem_of_seq in Hj. lia.
      + intros Hk. exists k. split; [done|]. apply elem_of_seq. lia. }
  assert (Hnd : NoDup ids) by (apply Hnodup; constructor).
  split; [exact Hids|]. split; [exact Hnd|]. split.
  - rewrite <- (length_seq N 1). apply Permutation_length.
    apply NoDup_Permutation; [done|apply NoDup_seq|].
    intros k. rewrite Hids, elem_of_seq. lia.
  - intros k a Hin. destruct (Helems k a Hin) as [Hnil|(e & He & Hp & Hr)].
    + by apply elem_of_nil in Hnil.
    + apply list_elem_of_filter in He as [Hraw He]. by exists e.
Qed.

Lemma C4_article_ids_witness :
  exists cm,
    CorpusManager.__init__ (Directory corpus2) = Ok cm
    /\ (forall k, k ∈ keys (CorpusManager.get_articles cm) <-> (1 <= k <= 2)%nat)
    /\ length (keys (CorpusManager.get_articles cm)) = 2.
Proof.
  destruct (CorpusManager.__init__ (Directory corpus2)) as [cm|] eqn:Hinit;
    [|by vm_compute in Hinit].
  exists cm. split; [done|].
  destruct (C4_article_ids corpus2 cm Hinit) as (Hids & _ & Hlen & _).
  split; [exact Hids|exact Hlen].
Defined.

(** ** What the specification says of the analyzer *)

(** C8: when the annotation artifact of an article is on disk,
    [from_conllu] raises [EmptyFileError] (the specification's
    EmptyArtifactFault) exactly when the artifact has zero length;
    otherwise it returns the document the parser reads from it. *)
Theorem C8_from_conllu (self : UDPipeAnalyzer.t) (article : Article)
    (disk : list DirEntry) (st : DirEntry) :
  stat disk (get_file_path article UDPIPE_CONLLU) = Some st ->
  (UDPipeAnalyzer.from_conllu self article disk = Raise EmptyFileError
   <-> st_size st = 0)
  /\ (st_size st <> 0 ->
      forall doc,
        parse_file_as_conll (UDPipeAnalyzer._analyzer self) st = Some doc ->
        UDPipeAnalyzer.from_conllu self article disk = Ok doc).
Proof.
  intros Hst. unfold UDPipeAnalyzer.from_conllu. rewrite Hst.
  destruct (Nat.eqb (st_size st) 0) eqn:Hsize.
  - apply Nat.eqb_eq in Hsize. split; [done|]. by intros [].
  - apply Nat.eqb_neq in Hsize. split.
    + split; [|done].
      by destruct (parse_file_as_conll (UDPipeAnalyzer._analyzer self) st).
    + by intros _ doc ->.
Qed.

Lemma C8_from_conllu_witness :
  UDPipeAnalyzer.from_conllu stub_udpipe article1 assets1 = Ok two_sentences
  /\ (UDPipeAnalyzer.from_conllu stub_udpipe article1
        [file "1_udpipe_conllu" ""] = Raise EmptyFileError).
Proof.
  split.
  - apply (C8_from_conllu stub_udpipe article1 assets1
             (file "1_udpipe_conllu" "# text = first")); [reflexivity|done|done].
  - apply (C8_from_conllu stub_udpipe article1 [file "1_udpipe_conllu" ""]
             (file "1_udpipe_conllu" "")); reflexivity.
Defined.

(** ** What the specification says of [TextProcessingPipeline] *)

Section TextProcessingFacts.
Context {W : Type} `{LibraryWrapper W}.

Import TextProcessingPipeline.

Lemma insert_middle {A} (l1 l2 : list A) (x y : A) :
  <[length l1 := y]> (l1 ++ x :: l2) = l1 ++ y :: l2.
Proof. induction l1 as [|z l1 IH]; [done|]. cbn. f_equal. exact IH. Qed.

Lemma calls_for_cons (k : nat) (a : Article) (doc : string)
    (arts : list (nat * Article)) (docs : list string) :
  calls_for ((k, a) :: arts) (doc :: docs)
  = Call_to_cleaned (stripped a) :: Call_to_conllu (annotated a doc)
    :: calls_for arts docs.
Proof. done. Qed.

(** The loop of [run] from the [idx]-th article on, when there is a
    document for each article still to be handled. *)
Lemma loop_spec (w : W) (conllu : list string) :
  (forall a disk, is_Some (_conllu_info a) ->
                  exists disk', to_conllu w a disk = Ok disk') ->
  forall (pending : list (nat * Article)) (docs : list string)
         (handled : list (nat * Article)) (used : list string)
         (idx : nat) (st : State),
    articles st = handled ++ pending ->
    conllu = used ++ docs ->
    idx = length handled -> idx = length used ->
    length docs = length pending ->
    exists st',
      loop w conllu idx pending st = (st', Ok tt)
      /\ articles st'
         = handled ++ zip_with (fun ka doc => (ka.1, annotated ka.2 doc))
                               pending docs
      /\ calls st' = calls st ++ calls_for pending docs.
Proof.
  intros Hpersist. induction pending as [|[k a] pending IH];
    intros docs handled used idx st Harts Hconllu Hidx Hused Hlen.
  - destruct docs; [|done]. exists st. cbn. by rewrite !app_nil_r in *.
  - destruct docs as [|doc docs]; [done|]. cbn [loop].
    assert (Hdoc : conllu !! idx = Some doc).
    { subst conllu. by apply list_lookup_middle. }
    rewrite Hdoc.
    fold (stripped a). fold (annotated a doc).
    destruct (Hpersist (annotated a doc)
                (write (disk st) (get_file_path (stripped a) CLEANED)
                       (text (stripped a)))) as [disk' Hdisk]; [by eexists|].
    unfold to_cleaned, update, log. cbn [articles disk calls].
    rewrite Hdisk, Harts, Hidx, !insert_middle.
    match goal with
    | |- context [loop w conllu _ pending ?s] => set (st3 := s)
    end.
    destruct (IH docs (handled ++ [(k, annotated a doc)]) (used ++ [doc])
                (S (length handled)) st3) as (st' & Hrun & Harts' & Hcalls').
    + subst st3. cbn [articles]. by rewrite <- app_assoc.
    + subst conllu. by rewrite <- app_assoc.
    + rewrite length_app. cbn. lia.
    + rewrite length_app. cbn. lia.
    + by injection Hlen.
    + exists st'. split; [exact Hrun|]. split.
      * rewrite Harts', <- app_assoc. done.
      * rewrite Hcalls'. subst st3. cbn [calls]. rewrite calls_for_cons.
        by rewrite <- !app_assoc.
Qed.

Lemma analyze_calls_for (arts : list (nat * Article)) (docs : list string) :
  analyze_calls (calls_for arts docs) = [].
Proof.
  revert docs. induction arts as [|[k a] arts IH]; intros [|doc docs]; try done.
  rewrite calls_for_cons. cbn. apply IH.
Qed.

(** C5: [run] makes exactly one [analyze] call, on the texts of the
    articles in the order the corpus yields them and as they are before
    any stripping; it then handles the articles in that same order: the
    marker is stripped from the text, the cleaned text is persisted, and
    the i-th document of the batch is attached to the i-th article, which
    is then persisted. *)
Theorem C5_run_batch_order (self : t W) (w : W) (assets : list DirEntry) :
  _analyzer self = Some w -> honours_contract w ->
  let st := initial self assets in
  let arts := CorpusManager.get_articles (corpus_manager self) in
  let texts := text <$> values arts in
  exists docs st',
    analyze w texts = Ok docs
    /\ length docs = length arts
    /\ run self st = (st', Ok tt)
    /\ calls st' = Call_analyze texts :: calls_for arts docs
    /\ analyze_calls (calls st') = [Call_analyze texts]
    /\ articles st'
       = zip_with (fun ka doc => (ka.1, annotated ka.2 doc)) arts docs
    /\ (forall i k a, arts !! i = Some (k, a) ->
          exists doc, docs !! i = Some doc
                      /\ articles st' !! i = Some (k, annotated a doc)).
Proof.
  intros Hw [Hone Hpersist] st arts texts.
  destruct (Hone texts) as (docs & Hdocs & Hlen).
  assert (Hlen' : length docs = length arts).
  { rewrite Hlen. unfold texts, values. by rewrite !length_fmap. }
  destruct (loop_spec w docs Hpersist arts docs [] [] 0
              (log (Call_analyze texts) st))
    as (st' & Hrun & Harts & Hcalls); try done.
  exists docs, st'. split; [done|]. split; [done|].
  assert (Hzip : articles st'
                 = zip_with (fun ka doc => (ka.1, annotated ka.2 doc)) arts docs)
    by exact Harts.
  split; [|split; [|split; [|split]]]; try done.
  - unfold run. rewrite Hw. cbv zeta.
    change (text <$> values (articles st)) with texts.
    rewrite Hdocs. exact Hrun.
  - rewrite Hcalls. cbn.
    by rewrite analyze_calls_for.
  - intros i k a Hi.
    destruct (lookup_lt_is_Some_2 docs i) as [doc Hdoc].
    { rewrite Hlen'. by eapply lookup_lt_Some. }
    exists doc. split; [done|].
    rewrite Hzip. by rewrite lookup_zip_with, Hi, Hdoc.
Qed.

End TextProcessingFacts.

(** [UDPipeAnalyzer] keeps the contract, whatever the model behind it. *)
Lemma udpipe_honours_contract (self : UDPipeAnalyzer.t) : honours_contract self.
Proof.
  split.
  - intros texts. eexists. split; [reflexivity|]. by rewrite length_fmap.
  - intros a disk [info Hinfo]. cbn. unfold UDPipeAnalyzer.to_conllu.
    rewrite Hinfo. by eexists.
Qed.

Lemma C5_run_batch_order_witness :
  exists st',
    TextProcessingPipeline.run pipeline2
      (TextProcessingPipeline.initial pipeline2 []) = (st', Ok tt)
    /\ analyze_calls (TextProcessingPipeline.calls st')
       = [Call_analyze ["secNBSPond"; "first"]]
    /\ TextProcessingPipeline.articles st'
       = [(2, mkArticle 2 "second" (Some ("[secNBSPond]" +:+ newline)) None);
          (1, mkArticle 1 "first" (Some ("[first]" +:+ newline)) None)].
Proof.
  destruct (C5_run_batch_order pipeline2 stub_udpipe [] eq_refl
              (udpipe_honours_contract stub_udpipe))
    as (docs & st' & Hdocs & _ & Hrun & _ & Hcalls & Harts & _).
  exists st'. split; [exact Hrun|]. split; [exact Hcalls|].
  rewrite Harts. injection Hdocs as <-. reflexivity.
Defined.

(** ** What the specification says of [POSFrequencyPipeline] *)

Section FrequencyFacts.

Import POSFrequencyPipeline.

Lemma foldl_insert_lookup (f : string -> nat) (l : list string)
    (d : gmap string nat) (p : string) :
  foldl (fun d pos => <[pos := f pos]> d) d l !! p
  = if decide (p ∈ l) then Some (f p) else d !! p.
Proof.
  revert d. induction l as [|x l IH]; intros d; cbn [foldl].
  - rewrite decide_False; [done|]. apply not_elem_of_nil.
  - rewrite IH. destruct (decide (p ∈ l)) as [Hin|Hin].
    + rewrite decide_True; [done|]. by apply elem_of_cons; right.
    + destruct (decide (p = x)) as [->|Hne].
      * rewrite decide_True by (apply elem_of_cons; by left).
        by rewrite lookup_insert_eq.
      * rewrite decide_False.
        -- by rewrite lookup_insert_ne.
        -- intros [?|?]%elem_of_cons; done.
Qed.

(** The comprehension gives every tag that occurs its number of
    occurrences. *)
Lemma comprehension_lookup (upos : list string) (p : string) :
  comprehension upos !! p
  = if decide (p ∈ upos) then Some (count upos p) else None.
Proof. unfold comprehension. by rewrite foldl_insert_lookup, lookup_empty. Qed.

(** Whatever came before, the loop ends with the histogram of the last
    sentence alone. *)
Lemma loop_last_sentence (sents : list Sentence) (last : Sentence)
    (acc : gmap string nat) :
  loop (sents ++ [last]) acc = comprehension (upos <$> words last).
Proof.
  revert acc. induction sents as [|s sents IH]; intros acc; [done|].
  cbn [app loop]. apply IH.
Qed.

(** So, for any analyzer, [_count_frequencies] returns the counts of the
    last sentence of the document it loads. *)
Lemma count_frequencies_last_sentence {W : Type} `{LibraryWrapper W}
    (self : t W) (article : Article) (disk : list DirEntry)
    (sents : list Sentence) (last : Sentence) :
  from_conllu (_analyzer self) article disk
  = Ok (mkDocument (sents ++ [last])) ->
  _count_frequencies self article disk
  = Ok (comprehension (upos <$> words last)).
Proof.
  intros Hdoc. unfold _count_frequencies. rewrite Hdoc. cbn.
  by rewrite loop_last_sentence.
Qed.

End FrequencyFacts.

(** C1: on a document of two sentences, NOUN VERB and then ADJ,
    [_count_frequencies] returns the counts of the last sentence only,
    [{ADJ: 1}], where the histogram of the document as a whole, which the
    specification and the docstring of the method ask for, is
    [{NOUN: 1, VERB: 1, ADJ: 1}]. *)
Theorem C1_last_sentence_only :
  POSFrequencyPipeline._count_frequencies frequency_pipeline article1 assets1
  = Ok {[ "ADJ" := 1 ]}
  /\ POSFrequencyPipeline.document_histogram two_sentences
     = {[ "NOUN" := 1; "VERB" := 1; "ADJ" := 1 ]}
  /\ ({[ "ADJ" := 1 ]} : gmap string nat) !! "NOUN" = None.
Proof. repeat split; vm_compute; reflexivity. Qed.

(** ** What the specification says of [PatternSearchPipeline] *)

(** C2: on the graph of scenario C, where the verb 1 governs the noun 3
    that governs a determiner and a modifier, [_find_pattern] returns
    [None] and [_add_children] leaves the node of the noun without
    children, where the extraction of section 4.5 gives one tree rooted at
    the verb, with the noun as its only child and both dependents nested
    under the noun. *)
Theorem C2_no_match_tree_built :
  PatternSearchPipeline._find_pattern PatternSearchPipeline.mk [scenario_C]
  = None
  /\ PatternSearchPipeline._add_children PatternSearchPipeline.mk scenario_C
       [] 3 (Node 3 "NOUN" [])
     = Node 3 "NOUN" []
  /\ PatternSearchPipeline.Spec.find_pattern ("VERB", "obj", "NOUN")
       [scenario_C]
     = [(0, [Node 1 "VERB"
               [Node 3 "NOUN" [Node 2 "DET" []; Node 4 "ADJ" []]]])].
Proof. repeat split. Qed.

(** * Further properties of the code *)

(** ** [CorpusManager] *)

Lemma check_sizes_ok_inv (entries : list DirEntry) :
  CorpusManager.check_sizes entries = Ok tt ->
  Forall (fun e => st_size e <> 0) entries.
Proof.
  induction entries as [|e entries IH]; [constructor|].
  cbn [CorpusManager.check_sizes].
  destruct (Nat.eqb (st_size e) 0) eqn:E; [done|].
  intros Hrest. constructor; [by apply Nat.eqb_neq|by apply IH].
Qed.

Lemma validate_ok_inv (entries : list DirEntry) :
  CorpusManager._validate_dataset (Directory entries) = Ok tt ->
  entries <> [] /\ families_consistent entries
  /\ Forall (fun e => st_size e <> 0) entries.
Proof.
  destruct entries as [|e entries]; [done|]. intros Hv. split; [done|].
  rewrite validate_directory in Hv. cbv zeta in Hv.
  destruct (Nat.eqb _ _) eqn:Hlen in Hv; cbn [negb] in Hv; [|done].
  case_bool_decide as Hmeta; cbn [negb] in Hv; [|done].
  case_bool_decide as Hraw; cbn [negb] in Hv; [|done].
  apply Nat.eqb_eq in Hlen. split; [done|]. by apply check_sizes_ok_inv.
Qed.

(** X1: [_validate_dataset] accepts a path exactly when it is a directory
    that has entries, whose families have the same size and are, as sets
    of names, the templates [1_meta.json .. N_meta.json] and
    [1_raw.txt .. N_raw.txt], and none of whose entries has zero length. *)
Theorem validate_accepts_iff (p : Path) :
  CorpusManager._validate_dataset p = Ok tt
  <-> exists entries,
        p = Directory entries /\ entries <> []
        /\ families_consistent entries
        /\ Forall (fun e => st_size e <> 0) entries.
Proof.
  split.
  - destruct p as [| |entries]; try done. intros Hv.
    exists entries. split; [done|]. by apply validate_ok_inv.
  - intros (entries & -> & Hne & (Hlen & Hmeta & Hraw) & Hsizes).
    destruct entries as [|e entries]; [done|].
    rewrite validate_directory. cbv zeta.
    rewrite (bool_decide_eq_true_2 _ Hmeta), (bool_decide_eq_true_2 _ Hraw).
    rewrite Hlen, Nat.eqb_refl. cbn [negb]. by apply check_sizes_nonzero.
Qed.

Lemma NoDup_template (rest : string) (n : nat) :
  NoDup (CorpusManager.template (String "_" rest) n).
Proof.
  unfold CorpusManager.template. apply NoDup_fmap_2_strong; [|apply NoDup_seq].
  intros j k _ _ Heq.
  pose proof (numeric_prefix_template j rest) as Hj.
  rewrite Heq, numeric_prefix_template in Hj. congruence.
Qed.

Lemma permutation_of_template (names : list string) (rest : string) :
  CorpusManager.set_of names
  = CorpusManager.set_of
      (CorpusManager.template (String "_" rest) (length names)) ->
  names ≡ₚ CorpusManager.template (String "_" rest) (length names).
Proof.
  intros Heq. symmetry. apply submseteq_length_Permutation.
  - apply NoDup_submseteq; [apply NoDup_template|].
    intros x. by apply set_of_elem.
  - by rewrite length_template.
Qed.

Lemma accepted_permutations (entries : list DirEntry) :
  CorpusManager._validate_dataset (Directory entries) = Ok tt ->
  meta_family entries
  ≡ₚ CorpusManager.template "_meta.json" (length (raw_family entries))
  /\ raw_family entries
     ≡ₚ CorpusManager.template "_raw.txt" (length (raw_family entries)).
Proof.
  intros Hv. apply validate_ok_inv in Hv as (_ & (Hlen & Hmeta & Hraw) & _).
  apply (permutation_of_template _ "meta.json") in Hmeta.
  apply (permutation_of_template _ "raw.txt") in Hraw.
  rewrite Hlen in Hmeta. done.
Qed.

(** X2: in a directory that [_validate_dataset] accepts, the names of each
    family are a rearrangement of its template: for every id 1, ..., N
    there is exactly one meta file and exactly one raw file, named by the
    id written without leading zeros, and the families hold nothing else. *)
Theorem accepted_families (entries : list DirEntry) :
  CorpusManager._validate_dataset (Directory entries) = Ok tt ->
  let N := length (raw_family entries) in
  meta_family entries ≡ₚ CorpusManager.template "_meta.json" N
  /\ raw_family entries ≡ₚ CorpusManager.template "_raw.txt" N
  /\ NoDup (meta_family entries) /\ NoDup (raw_family entries).
Proof.
  intros Hv N. apply accepted_permutations in Hv as [Hmeta Hraw].
  fold N in Hmeta, Hraw. split; [done|]. split; [done|].
  rewrite Hmeta, Hraw. split; apply NoDup_template.
Qed.

Lemma accepted_families_witness :
  meta_family corpus2 ≡ₚ ["1_meta.json"; "2_meta.json"]
  /\ raw_family corpus2 ≡ₚ ["1_raw.txt"; "2_raw.txt"].
Proof.
  destruct (accepted_families corpus2) as (Hmeta & Hraw & _).
  - vm_compute. reflexivity.
  - split; [exact Hmeta|exact Hraw].
Defined.

(** X3: when the two families differ in size, construction reports just
    that, with both sizes, whatever else is wrong with the directory. *)
Theorem amounts_reported_first (entries : list DirEntry) :
  length (meta_family entries) <> length (raw_family entries) ->
  CorpusManager.__init__ (Directory entries)
  = Raise (InconsistentDatasetError
             (AmountsNotEqual (length (meta_family entries))
                              (length (raw_family entries)))).
Proof.
  intros Hlen. destruct entries as [|e entries]; [done|].
  apply init_raise. rewrite validate_directory. cbv zeta.
  by apply Nat.eqb_neq in Hlen as ->.
Qed.

Lemma amounts_reported_first_witness :
  CorpusManager.__init__ (Directory corpus_five)
  = Raise (InconsistentDatasetError (AmountsNotEqual 5 4)).
Proof. apply (amounts_reported_first corpus_five). vm_compute. lia. Defined.

Lemma check_sizes_first_empty (before after : list DirEntry) (e : DirEntry) :
  Forall (fun e' => st_size e' <> 0) before -> st_size e = 0 ->
  CorpusManager.check_sizes (before ++ e :: after)
  = Raise (InconsistentDatasetError (FileIsEmpty (name e))).
Proof.
  intros Hbefore Hz.
  induction Hbefore as [|e' before He' _ IH]; cbn [app CorpusManager.check_sizes].
  - by rewrite Hz.
  - by apply Nat.eqb_neq in He' as ->.
Qed.

(** X4: when the checks on names and sizes of families pass, the file
    reported as empty is the first zero-length entry in the order the
    directory lists its entries, whether it belongs to a family or not. *)
Theorem first_empty_file_reported (before after : list DirEntry) (e : DirEntry) :
  families_consistent (before ++ e :: after) ->
  Forall (fun e' => st_size e' <> 0) before -> st_size e = 0 ->
  CorpusManager.__init__ (Directory (before ++ e :: after))
  = Raise (InconsistentDatasetError (FileIsEmpty (name e))).
Proof.
  intros (Hlen & Hmeta & Hraw) Hbefore Hz. apply init_raise.
  pose proof (check_sizes_first_empty before after e Hbefore Hz) as Hsizes.
  destruct (before ++ e :: after) as [|e0 entries] eqn:E.
  { by destruct before. }
  rewrite validate_directory. cbv zeta.
  rewrite (bool_decide_eq_true_2 _ Hmeta), (bool_decide_eq_true_2 _ Hraw).
  by rewrite Hlen, Nat.eqb_refl.
Qed.

Lemma first_empty_file_reported_witness :
  CorpusManager.__init__ (Directory corpus_two_empty)
  = Raise (InconsistentDatasetError (FileIsEmpty "1_cleaned.txt")).
Proof.
  apply (first_empty_file_reported [file "2_raw.txt" "second"]
           [file "1_meta.json" "{}"; file "1_raw.txt" ""; file "2_meta.json" "{}"]
           (file "1_cleaned.txt" "")).
  - repeat split; by_evaluation.
  - repeat constructor. done.
  - reflexivity.
Defined.

(** X5: the files [_scan_dataset] reads, those that [glob('*_raw.txt')]
    yields, are the files the first loop of [_validate_dataset] put in
    [raw], in the same order; the [elif] hides none of them. *)
Theorem scan_reads_validated_raw (entries : list DirEntry) :
  name <$> glob (Directory entries) "*_raw.txt"
  = (CorpusManager.classify entries [] []).2.
Proof. by rewrite glob_raw, classify_families. Qed.

Lemma keys_dict_set_fresh {V} (d : list (nat * V)) (k : nat) (v : V) :
  k ∉ keys d -> keys (dict_set d k v) = keys d ++ [k].
Proof.
  unfold keys. induction d as [|[k0 v0] d IH]; [done|].
  cbn. intros Hk. apply not_elem_of_cons in Hk as [Hne Hk].
  rewrite decide_False by done. cbn. f_equal. by apply IH.
Qed.

(** A comprehension over files with distinct ids, none of them a key yet,
    appends the ids in the order of the files. *)
Lemma comprehension_keys_in_order (files : list DirEntry)
    (acc d : list (nat * Article)) :
  CorpusManager.comprehension files acc = Ok d ->
  NoDup (numeric_prefix <$> (name <$> files)) ->
  (forall k, k ∈ keys acc -> Some k ∉ numeric_prefix <$> (name <$> files)) ->
  Some <$> keys d
  = (Some <$> keys acc) ++ (numeric_prefix <$> (name <$> files)).
Proof.
  revert acc. induction files as [|e files IH]; intros acc Hd Hnd Hfresh.
  - injection Hd as <-. cbn. by rewrite app_nil_r.
  - cbn [CorpusManager.comprehension] in Hd.
    destruct (get_article_id_from_filepath e) as [k0|] eqn:Hk0; [|done].
    cbn in Hd. destruct (from_raw e) as [v|]; [|done]. cbn in Hd.
    assert (Hp : numeric_prefix (name e) = Some k0).
    { unfold get_article_id_from_filepath in Hk0.
      destruct (numeric_prefix (name e)); congruence. }
    cbn [fmap list_fmap] in Hnd, Hfresh |- *. rewrite Hp in Hnd, Hfresh |- *.
    apply NoDup_cons in Hnd as [Hk0' Hnd].
    assert (Hacc : k0 ∉ keys acc).
    { intros Hin. apply (Hfresh _ Hin), elem_of_cons. by left. }
    rewrite (IH _ Hd Hnd).
    + rewrite keys_dict_set_fresh by done.
      by rewrite fmap_app, <- app_assoc.
    + intros k Hk. rewrite keys_dict_set_fresh in Hk by done.
      apply elem_of_app in Hk as [Hk|Hk].
      * intros Hin. apply (Hfresh _ Hk), elem_of_cons. by right.
      * apply list_elem_of_singleton in Hk as ->. exact Hk0'.
Qed.

(** X6: when construction succeeds, the keys of the storage, in the order
    the dictionary iterates them, are the ids of the raw files in the
    order the directory lists those files -- not in ascending order unless
    the listing is. *)
Theorem storage_in_listing_order (entries : list DirEntry) (cm : CorpusManager.t) :
  CorpusManager.__init__ (Directory entries) = Ok cm ->
  Some <$> keys (CorpusManager.get_articles cm)
  = numeric_prefix <$> raw_family entries.
Proof.
  intros Hinit. apply init_ok in Hinit as (Hv & Hs & _).
  unfold CorpusManager._scan_dataset in Hs. rewrite glob_raw in Hs.
  apply accepted_permutations in Hv as [_ Hraw].
  apply (comprehension_keys_in_order _ []) in Hs.
  - exact Hs.
  - fold (raw_family entries). rewrite Hraw, (prefixes_of_template "raw.txt").
    apply NoDup_fmap_2; [apply _|apply NoDup_seq].
  - intros k Hk. by apply elem_of_nil in Hk.
Qed.

Lemma storage_in_listing_order_witness :
  exists cm,
    CorpusManager.__init__ (Directory corpus2) = Ok cm
    /\ keys (CorpusManager.get_articles cm) = [2; 1].
Proof.
  destruct (CorpusManager.__init__ (Directory corpus2)) as [cm|] eqn:Hinit;
    [|by vm_compute in Hinit].
  exists cm. split; [done|].
  pose proof (storage_in_listing_order corpus2 cm Hinit) as Hkeys.
  change (numeric_prefix <$> raw_family corpus2) with (Some <$> [2; 1]) in Hkeys.
  by apply (inj (fmap Some)) in Hkeys.
Defined.

(** ** [TextProcessingPipeline] *)

Section TextProcessingMore.
Context {W : Type} `{LibraryWrapper W}.

Import TextProcessingPipeline.

(** The loop of [run] on a batch of any length. *)
Lemma loop_any_batch (w : W) (conllu : list string) :
  (forall a disk, is_Some (_conllu_info a) ->
                  exists disk', to_conllu w a disk = Ok disk') ->
  forall (pending : list (nat * Article)) (docs : list string)
         (handled : list (nat * Article)) (used : list string)
         (idx : nat) (st : State),
    articles st = handled ++ pending ->
    conllu = used ++ docs ->
    idx = length handled -> idx = length used ->
    exists st',
      loop w conllu idx pending st
      = (st', if decide (length pending <= length docs)
              then Ok tt else Raise IndexError)
      /\ articles st'
         = handled
           ++ zip_with (fun ka doc => (ka.1, annotated ka.2 doc)) pending docs
           ++ unannotated (drop (length docs) pending)
      /\ calls st'
         = calls st ++ calls_for pending docs
           ++ last_cleaned (drop (length docs) pending).
Proof.
  intros Hpersist. induction pending as [|[k a] pending IH];
    intros docs handled used idx st Harts Hconllu Hidx Hused.
  - exists st. rewrite drop_nil. cbn [loop length].
    rewrite decide_True by lia. cbn. by rewrite !app_nil_r in *.
  - destruct docs as [|doc docs].
    + cbn [loop]. rewrite app_nil_r in Hconllu. subst conllu.
      rewrite (lookup_ge_None_2 used idx) by lia.
      fold (stripped a). unfold to_cleaned, update, log.
      cbn [articles disk calls]. eexists. split; [|split].
      * cbn [length]. rewrite decide_False by lia. reflexivity.
      * cbn [articles]. by rewrite Harts, Hidx, insert_middle.
      * cbn [calls]. done.
    + cbn [loop].
      assert (Hdoc : conllu !! idx = Some doc).
      { subst conllu. by apply list_lookup_middle. }
      rewrite Hdoc. fold (stripped a). fold (annotated a doc).
      destruct (Hpersist (annotated a doc)
                  (write (disk st) (get_file_path (stripped a) CLEANED)
                         (text (stripped a)))) as [disk' Hdisk]; [by eexists|].
      unfold to_cleaned, update, log. cbn [articles disk calls].
      rewrite Hdisk, Harts, Hidx, !insert_middle.
      match goal with
      | |- context [loop w conllu _ pending ?s] => set (st3 := s)
      end.
      destruct (IH docs (handled ++ [(k, annotated a doc)]) (used ++ [doc])
                  (S (length handled)) st3) as (st' & Hrun & Harts' & Hcalls').
      * subst st3. cbn [articles]. by rewrite <- app_assoc.
      * subst conllu. by rewrite <- app_assoc.
      * rewrite length_app. cbn. lia.
      * rewrite length_app. cbn. lia.
      * exists st'. split; [|split].
        -- rewrite Hrun. cbn [length].
           destruct (decide (length pending <= length docs));
             [rewrite decide_True by lia|rewrite decide_False by lia]; done.
        -- rewrite Harts', <- app_assoc. done.
        -- rewrite Hcalls'. subst st3. cbn [calls length drop].
           rewrite calls_for_cons. by rewrite <- !app_assoc.
Qed.

Lemma run_any_batch (self : t W) (w : W) (st : State) (docs : list string) :
  _analyzer self = Some w ->
  (forall a disk, is_Some (_conllu_info a) ->
                  exists disk', to_conllu w a disk = Ok disk') ->
  analyze w (text <$> values (articles st)) = Ok docs ->
  exists st',
    run self st
    = (st', if decide (length (articles st) <= length docs)
            then Ok tt else Raise IndexError)
    /\ articles st'
       = zip_with (fun ka doc => (ka.1, annotated ka.2 doc)) (articles st) docs
         ++ unannotated (drop (length docs) (articles st))
    /\ calls st'
       = calls st ++ Call_analyze (text <$> values (articles st))
         :: calls_for (articles st) docs
         ++ last_cleaned (drop (length docs) (articles st)).
Proof.
  intros Hw Hpersist Hdocs.
  destruct (loop_any_batch w docs Hpersist (articles st) docs [] [] 0
              (log (Call_analyze (text <$> values (articles st))) st))
    as (st' & Hrun & Harts & Hcalls); try done.
  exists st'. split; [|split].
  - unfold run. rewrite Hw. cbv zeta. rewrite Hdocs. exact Hrun.
  - exact Harts.
  - rewrite Hcalls. cbn [log calls]. by rewrite <- app_assoc.
Qed.

(** X7: [run] does not compare the size of the batch with the number of
    articles.  When the analyzer returns fewer documents than there are
    articles, [run] raises [IndexError] at the first article without a
    document: the articles before it are annotated and persisted, that one
    has been stripped and its cleaned text persisted but it carries no
    annotation, and the articles after it are untouched. *)
Theorem run_short_batch (self : t W) (w : W) (st : State) (docs : list string) :
  _analyzer self = Some w ->
  (forall a disk, is_Some (_conllu_info a) ->
                  exists disk', to_conllu w a disk = Ok disk') ->
  analyze w (text <$> values (articles st)) = Ok docs ->
  length docs < length (articles st) ->
  exists st' k a,
    articles st !! length docs = Some (k, a)
    /\ run self st = (st', Raise IndexError)
    /\ articles st'
       = zip_with (fun ka doc => (ka.1, annotated ka.2 doc)) (articles st) docs
         ++ (k, stripped a) :: drop (S (length docs)) (articles st)
    /\ calls st'
       = calls st ++ Call_analyze (text <$> values (articles st))
         :: calls_for (articles st) docs ++ [Call_to_cleaned (stripped a)].
Proof.
  intros Hw Hpersist Hdocs Hshort.
  destruct (run_any_batch self w st docs Hw Hpersist Hdocs)
    as (st' & Hrun & Harts & Hcalls).
  destruct (lookup_lt_is_Some_2 (articles st) (length docs) Hshort) as [[k a] Hka].
  rewrite decide_False in Hrun by lia.
  rewrite (drop_S _ _ _ Hka) in Harts, Hcalls.
  by exists st', k, a.
Qed.


End TextProcessingMore.

Lemma udpipe_persist (self : UDPipeAnalyzer.t) (a : Article) (disk : list DirEntry) :
  is_Some (_conllu_info a) ->
  exists disk', UDPipeAnalyzer.to_conllu self a disk = Ok disk'.
Proof.
  intros [info Hinfo]. unfold UDPipeAnalyzer.to_conllu. rewrite Hinfo.
  by eexists.
Qed.

Lemma run_short_batch_witness :
  exists st',
    TextProcessingPipeline.run pipeline_lossy
      (TextProcessingPipeline.initial pipeline_lossy []) = (st', Raise IndexError)
    /\ TextProcessingPipeline.articles st'
       = [(2, mkArticle 2 "second" (Some "secNBSPond") None);
          (1, mkArticle 1 "first" None None)].
Proof.
  destruct (run_short_batch (H := lossy_wrapper) pipeline_lossy lossy
              (TextProcessingPipeline.initial pipeline_lossy [])
              ["secNBSPond"] eq_refl (udpipe_persist stub_udpipe) eq_refl)
    as (st' & k & a & Hka & Hrun & Harts & _).
  - cbn. lia.
  - injection Hka as <- <-. exists st'. split; [exact Hrun|exact Harts].
Defined.


Section TextProcessingInvariant.
Context {W : Type} `{LibraryWrapper W}.

Import TextProcessingPipeline.

Lemma shape_insert_middle (handled rest : list (nat * Article)) (k : nat)
    (a a' : Article) :
  article_id a' = article_id a ->
  shape (<[length handled := (k, a')]> (handled ++ (k, a) :: rest))
  = shape (handled ++ (k, a) :: rest).
Proof.
  intros Hid. rewrite insert_middle. unfold shape.
  rewrite !fmap_app. cbn. by rewrite Hid.
Qed.

Lemma analyze_calls_snoc (trace : list Call) (c : Call) :
  is_analyze c = false -> analyze_calls (trace ++ [c]) = analyze_calls trace.
Proof.
  intros Hc. unfold analyze_calls. rewrite List.filter_app. cbn.
  rewrite Hc. apply app_nil_r.
Qed.

(** Whatever the analyzer answers, the loop of [run] keeps the keys, the
    ids and the order of the articles, and makes no [analyze] call. *)
Lemma loop_keeps_shape (w : W) (conllu : list string) :
  forall (pending handled : list (nat * Article)) (idx : nat) (st : State),
    articles st = handled ++ pending -> idx = length handled ->
    shape (articles (loop w conllu idx pending st).1) = shape (articles st)
    /\ analyze_calls (calls (loop w conllu idx pending st).1)
       = analyze_calls (calls st).
Proof.
  induction pending as [|[k a] pending IH]; intros handled idx st Harts Hidx;
    [done|].
  cbn [loop]. fold (stripped a).
  unfold to_cleaned, update, log. cbn [articles disk calls].
  rewrite Harts, Hidx, insert_middle.
  assert (Hshape1 : shape (handled ++ (k, stripped a) :: pending)
                    = shape (handled ++ (k, a) :: pending)).
  { unfold shape. rewrite !fmap_app. done. }
  destruct (conllu !! length handled) as [doc|].
  - fold (annotated a doc). rewrite insert_middle.
    assert (Hshape2 : shape (handled ++ (k, annotated a doc) :: pending)
                      = shape (handled ++ (k, a) :: pending)).
    { unfold shape. rewrite !fmap_app. done. }
    destruct (to_conllu w (annotated a doc) _) as [disk'|e].
    + match goal with
      | |- context [loop w conllu _ pending ?s] => set (st3 := s)
      end.
      destruct (IH (handled ++ [(k, annotated a doc)]) (S (length handled)) st3)
        as [Hs Hc].
      * subst st3. cbn [articles]. by rewrite <- app_assoc.
      * rewrite length_app. cbn. lia.
      * rewrite Hs, Hc. subst st3. cbn [articles calls].
        by rewrite !analyze_calls_snoc.
    + cbn [fst articles calls]. by rewrite !analyze_calls_snoc.
  - cbn [fst articles calls]. by rewrite analyze_calls_snoc.
Qed.

(** X9: whatever the analyzer does -- answer with the wrong number of
    documents, raise, fail to persist, or be absent --, [run] never adds,
    removes or reorders articles and never changes a key or an article id;
    and the [analyze] calls it makes are one, on the texts of all the
    articles, when an analyzer is there, and none when there is none. *)
Theorem run_keeps_storage_shape (self : t W) (st : State) :
  shape (articles (run self st).1) = shape (articles st)
  /\ analyze_calls (calls (run self st).1)
     = analyze_calls (calls st)
       ++ match _analyzer self with
          | Some _ => [Call_analyze (text <$> values (articles st))]
          | None => []
          end.
Proof.
  unfold run. destruct (_analyzer self) as [w|].
  - cbv zeta.
    assert (Hlog : analyze_calls
                     (calls (log (Call_analyze (text <$> values (articles st))) st))
                   = analyze_calls (calls st)
                     ++ [Call_analyze (text <$> values (articles st))]).
    { unfold log, analyze_calls. cbn [calls]. by rewrite List.filter_app. }
    destruct (analyze w (text <$> values (articles st))) as [conllu|e].
    + destruct (loop_keeps_shape w conllu (articles st) [] 0
                  (log (Call_analyze (text <$> values (articles st))) st))
        as [Hs Hc]; [done|done|].
      cbn [log articles] in Hs |- *. by rewrite Hs, Hc, Hlog.
    + cbn [fst]. by rewrite Hlog.
  - cbn [fst]. by rewrite app_nil_r.
Qed.

End TextProcessingInvariant.

(** *** Stripping the marker *)

Lemma replace_absent (old new s : string) :
  occurs old s = false -> PyStr.replace s old new = s.
Proof.
  unfold PyStr.replace. induction s as [|c s IH]; [done|].
  cbn [occurs PyStr.replace_from]. intros Hocc.
  apply orb_false_iff in Hocc as [Hprefix Hocc].
  rewrite Hprefix. f_equal. by apply IH.
Qed.

(** X10: an article whose text does not contain the marker [NBSP] comes
    out of the stripping of [run] unchanged, so what [run] stores for it is
    the article itself with the annotation attached. *)
Theorem marker_free_unchanged (a : Article) (doc : string) :
  occurs "NBSP" (text a) = false ->
  stripped a = a /\ annotated a doc = set_conllu_info a doc.
Proof.
  intros Hfree. assert (Hs : stripped a = a).
  { unfold stripped. rewrite replace_absent by done. by destruct a. }
  split; [exact Hs|]. unfold annotated. by rewrite Hs.
Qed.

Lemma marker_free_unchanged_witness :
  stripped article1 = article1
  /\ annotated article1 "doc" = set_conllu_info article1 "doc".
Proof. apply (marker_free_unchanged article1 "doc"). reflexivity. Defined.

(** ** [UDPipeAnalyzer] *)

Lemma stat_write_same (disk : list DirEntry) (path content : string) :
  stat (write disk path content) path = Some (file path content).
Proof.
  unfold stat. induction disk as [|e disk IH]; cbn [write List.find].
  - cbn. by rewrite String.eqb_refl.
  - destruct (String.eqb (name e) path) eqn:E; cbn [List.find].
    + cbn. by rewrite String.eqb_refl.
    + by rewrite E.
Qed.

Lemma stat_write_other (disk : list DirEntry) (path other content : string) :
  other <> path -> stat (write disk path content) other = stat disk other.
Proof.
  intros Hne. unfold stat.
  assert (Hpo : String.eqb path other = false)
    by (apply String.eqb_neq; congruence).
  induction disk as [|e disk IH]; cbn [write List.find].
  - cbn. by rewrite Hpo.
  - destruct (String.eqb (name e) path) eqn:E; cbn [List.find].
    + apply String.eqb_eq in E. cbn [name file]. by rewrite E, Hpo.
    + by rewrite IH.
Qed.

Lemma persist_then_load_aux (self : UDPipeAnalyzer.t) (article : Article)
    (disk : list DirEntry) (info : string) :
  _conllu_info article = Some info ->
  exists disk',
    UDPipeAnalyzer.to_conllu self article disk = Ok disk'
    /\ UDPipeAnalyzer.from_conllu self article disk'
       = (if decide (info = "") then Raise EmptyFileError
          else parsed self (file (get_file_path article UDPIPE_CONLLU) info)).
Proof.
  intros Hinfo. exists (write disk (get_file_path article UDPIPE_CONLLU) info).
  split.
  - unfold UDPipeAnalyzer.to_conllu. by rewrite Hinfo.
  - unfold UDPipeAnalyzer.from_conllu. rewrite stat_write_same.
    cbn [st_size file]. destruct info; [done|]. cbn [String.length Nat.eqb].
    by rewrite decide_False.
Qed.

(** X11: persisting and then loading.  [to_conllu] on an annotated article
    succeeds and changes no other file; [from_conllu] on the resulting
    directory raises [EmptyFileError] when the annotation is the empty
    string and otherwise hands the parser a file that holds exactly the
    annotation. *)
Theorem persist_then_load (self : UDPipeAnalyzer.t) (article : Article)
    (disk : list DirEntry) (info : string) :
  _conllu_info article = Some info ->
  let path := get_file_path article UDPIPE_CONLLU in
  exists disk',
    UDPipeAnalyzer.to_conllu self article disk = Ok disk'
    /\ UDPipeAnalyzer.from_conllu self article disk'
       = (if decide (info = "") then Raise EmptyFileError
          else parsed self (file path info))
    /\ (forall other, other <> path -> stat disk' other = stat disk other).
Proof.
  intros Hinfo path. exists (write disk path info). split; [|split].
  - unfold UDPipeAnalyzer.to_conllu. by rewrite Hinfo.
  - unfold UDPipeAnalyzer.from_conllu. fold path. rewrite stat_write_same.
    cbn [st_size file]. destruct info; [done|]. cbn [String.length Nat.eqb].
    by rewrite decide_False.
  - intros other Hne. by apply stat_write_other.
Qed.

Lemma persist_then_load_witness :
  exists disk',
    UDPipeAnalyzer.to_conllu stub_udpipe (set_conllu_info article1 "1 kot") assets1
    = Ok disk'
    /\ UDPipeAnalyzer.from_conllu stub_udpipe (set_conllu_info article1 "1 kot") disk'
       = Ok two_sentences.
Proof.
  destruct (persist_then_load stub_udpipe (set_conllu_info article1 "1 kot")
              assets1 "1 kot" eq_refl) as (disk' & Hw & Hr & _).
  exists disk'. split; [exact Hw|exact Hr].
Defined.

Lemma append_not_empty (s t : string) : t <> "" -> s +:+ t <> "".
Proof. intros Ht. destruct s; [done|]. by rewrite append_cons. Qed.

(** X12: a document that [analyze] returns is never the empty string (it
    ends with a newline), so an article annotated with it and persisted is
    never refused by [from_conllu] as an empty file: loading gets as far as
    the parser. *)
Theorem analyzed_is_loadable (self : UDPipeAnalyzer.t) (texts docs : list string)
    (doc : string) (article : Article) (disk : list DirEntry) :
  UDPipeAnalyzer.analyze self texts = Ok docs -> doc ∈ docs ->
  doc <> ""
  /\ exists disk',
       UDPipeAnalyzer.to_conllu self (set_conllu_info article doc) disk = Ok disk'
       /\ UDPipeAnalyzer.from_conllu self (set_conllu_info article doc) disk'
          = parsed self (file (get_file_path article UDPIPE_CONLLU) doc).
Proof.
  intros [= <-] Hdoc. apply list_elem_of_fmap in Hdoc as (t & -> & _).
  assert (Hne : conll_str (UDPipeAnalyzer._analyzer self) t +:+ newline <> "")
    by (by apply append_not_empty).
  split; [exact Hne|].
  destruct (persist_then_load_aux self (set_conllu_info article
              (conll_str (UDPipeAnalyzer._analyzer self) t +:+ newline)) disk _ eq_refl)
    as (disk' & Hw & Hr).
  exists disk'. split; [exact Hw|]. rewrite Hr. by rewrite decide_False.
Qed.

Lemma analyzed_is_loadable_witness :
  exists disk',
    UDPipeAnalyzer.to_conllu stub_udpipe
      (set_conllu_info article1 ("[first]" +:+ newline)) assets1 = Ok disk'
    /\ UDPipeAnalyzer.from_conllu stub_udpipe
         (set_conllu_info article1 ("[first]" +:+ newline)) disk'
       = Ok two_sentences.
Proof.
  destruct (analyzed_is_loadable stub_udpipe ["first"] ["[first]" +:+ newline]
              ("[first]" +:+ newline) article1 assets1 eq_refl)
    as (_ & disk' & Hw & Hr).
  - repeat constructor.
  - exists disk'. split; [exact Hw|exact Hr].
Defined.

(** ** [POSFrequencyPipeline] *)

Section FrequencyMore.

Import POSFrequencyPipeline.

Lemma count_positive (upos : list string) (p : string) :
  p ∈ upos -> 1 <= count upos p.
Proof.
  intros Hp. unfold count.
  assert (Hin : p ∈ filter (fun x => x = p) upos)
    by (by apply list_elem_of_filter).
  destruct (filter (fun x => x = p) upos); [by apply elem_of_nil in Hin|].
  cbn. lia.
Qed.

(** X13: the dictionary that the comprehension of [_count_frequencies]
    builds for a sentence has exactly the tags of the sentence as keys,
    each with the number of words that carry it, which is at least one. *)
Theorem histogram_of_sentence (upos : list string) (p : string) :
  (p ∈ upos ->
   comprehension upos !! p = Some (count upos p) /\ 1 <= count upos p)
  /\ (p ∉ upos -> comprehension upos !! p = None).
Proof.
  rewrite comprehension_lookup. split; intros Hp.
  - rewrite decide_True by done. split; [done|]. by apply count_positive.
  - by rewrite decide_False.
Qed.

(** X14: what [_count_frequencies] returns once the document is loaded:
    the empty dictionary for a document without sentences; the histogram
    of the last sentence, and of it alone, for any other document; hence
    the histogram of the whole document when it has a single sentence. *)
Theorem count_frequencies_by_cases {W : Type} `{LibraryWrapper W}
    (self : t W) (article : Article) (disk : list DirEntry)
    (doc : CoNLLUDocument) :
  from_conllu (_analyzer self) article disk = Ok doc ->
  (sentences doc = [] -> _count_frequencies self article disk = Ok ∅)
  /\ (forall sents last,
        sentences doc = sents ++ [last] ->
        _count_frequencies self article disk
        = Ok (comprehension (upos <$> words last)))
  /\ (forall only,
        sentences doc = [only] ->
        _count_frequencies self article disk = Ok (document_histogram doc)).
Proof.
  intros Hdoc. unfold _count_frequencies. rewrite Hdoc. cbn.
  split; [|split].
  - by intros ->.
  - intros sents last ->. by rewrite loop_last_sentence.
  - intros only Honly. unfold document_histogram. rewrite Honly. cbn.
    by rewrite app_nil_r.
Qed.

Lemma sum_list_permutation (l1 l2 : list nat) :
  l1 ≡ₚ l2 -> sum_list l1 = sum_list l2.
Proof. induction 1; cbn; lia. Qed.

Lemma total_insert (m : gmap string nat) (p : string) (n : nat) :
  m !! p = None -> total (<[p := n]> m) = n + total m.
Proof.
  intros Hp. unfold total.
  rewrite (sum_list_permutation _ ((p, n) :: map_to_list m).*2); [done|].
  by rewrite map_to_list_insert.
Qed.

Lemma length_filter_split (l : list string) (p : string) :
  length l = length (filter (fun x => x = p) l)
             + length (filter (fun x => x <> p) l).
Proof.
  induction l as [|x l IH]; [done|]. rewrite !filter_cons.
  destruct (decide (x = p)); [rewrite decide_False by tauto|rewrite decide_True by done];
    cbn; lia.
Qed.

Lemma count_filter_other (l : list string) (p q : string) :
  q <> p -> count (filter (fun x => x <> p) l) q = count l q.
Proof.
  intros Hne. unfold count. induction l as [|x l IH]; [done|].
  rewrite !filter_cons. destruct (decide (x <> p)) as [Hx|Hx].
  - rewrite !filter_cons. destruct (decide (x = q)); cbn; by rewrite IH.
  - rewrite decide_False; [done|]. intros ->. by apply Hx.
Qed.

(** A dictionary that gives the tags of a list their counts sums up to
    the length of the list. *)
Lemma total_of_counts (m : gmap string nat) :
  forall l : list string,
    (forall p, m !! p = if decide (p ∈ l) then Some (count l p) else None) ->
    total m = length l.
Proof.
  induction m as [|p n m Hp IH] using map_ind; intros l Hm.
  - destruct l as [|x l]; [done|]. specialize (Hm x).
    rewrite lookup_empty, decide_True in Hm by (apply elem_of_cons; by left).
    done.
  - rewrite total_insert by done.
    pose proof (Hm p) as Hmp. rewrite lookup_insert_eq in Hmp.
    destruct (decide (p ∈ l)) as [Hin|]; [|done]. injection Hmp as ->.
    rewrite (IH (filter (fun x => x <> p) l)).
    + rewrite (length_filter_split l p). done.
    + intros q. destruct (decide (q = p)) as [->|Hq].
      * rewrite Hp, decide_False; [done|].
        intros [? _]%list_elem_of_filter. done.
      * specialize (Hm q). rewrite lookup_insert_ne in Hm by done.
        rewrite Hm. destruct (decide (q ∈ l)) as [Hql|Hql].
        -- rewrite decide_True by (by apply list_elem_of_filter).
           by rewrite count_filter_other.
        -- rewrite decide_False; [done|].
           intros [_ ?]%list_elem_of_filter. done.
Qed.

(** X15: the counts of the dictionary built for a sentence add up to the
    number of words of the sentence: every word is counted once. *)
Theorem histogram_total (upos : list string) :
  total (comprehension upos) = length upos.
Proof. apply total_of_counts. intros p. apply comprehension_lookup. Qed.

End FrequencyMore.

Lemma count_frequencies_by_cases_witness :
  POSFrequencyPipeline._count_frequencies frequency_pipeline article1 assets1
  = Ok (POSFrequencyPipeline.comprehension ["ADJ"]).
Proof.
  destruct (count_frequencies_by_cases (H := UDPipeAnalyzer.wrapper)
              frequency_pipeline article1 assets1 two_sentences eq_refl)
    as (_ & Hlast & _).
  exact (Hlast [mkSentence [mkWord 1 "kot" "NOUN" 2 "nsubj";
                            mkWord 2 "spit" "VERB" 0 "root"]]
               (mkSentence [mkWord 1 "tiho" "ADJ" 0 "root"]) eq_refl).
Defined.


(** ** [TextProcessingPipeline] with [UDPipeAnalyzer] *)




(** ** [CorpusManager] and the order of the listing *)

Lemma families_permutation (entries entries' : list DirEntry) :
  entries ≡ₚ entries' ->
  meta_family entries ≡ₚ meta_family entries'
  /\ raw_family entries ≡ₚ raw_family entries'.
Proof.
  intros Hperm. unfold meta_family, raw_family.
  split; apply fmap_Permutation; by apply filter_Permutation.
Qed.

Lemma families_consistent_permutation (entries entries' : list DirEntry) :
  entries ≡ₚ entries' ->
  families_consistent entries -> families_consistent entries'.
Proof.
  intros Hperm (Hlen & Hmeta & Hraw).
  destruct (families_permutation _ _ Hperm) as [Pm Pr].
  unfold families_consistent, CorpusManager.set_of in *.
  rewrite <- (Permutation_length Pm), <- (Permutation_length Pr).
  rewrite <- (list_to_set_perm_L _ _ Pm), <- (list_to_set_perm_L _ _ Pr).
  done.
Qed.

(** X18: whether [_validate_dataset] accepts a directory does not depend on
    the order in which the directory lists its entries. *)
Theorem acceptance_ignores_listing_order (entries entries' : list DirEntry) :
  entries ≡ₚ entries' ->
  CorpusManager._validate_dataset (Directory entries) = Ok tt ->
  CorpusManager._validate_dataset (Directory entries') = Ok tt.
Proof.
  intros Hperm Hv. apply validate_ok_inv in Hv as (Hne & Hc & Hsizes).
  destruct entries' as [|e' entries'].
  { apply Permutation_nil_r in Hperm. done. }
  apply (families_consistent_permutation _ _ Hperm) in Hc
    as (Hlen & Hmeta & Hraw).
  rewrite validate_directory. cbv zeta.
  rewrite (bool_decide_eq_true_2 _ Hmeta), (bool_decide_eq_true_2 _ Hraw).
  rewrite Hlen, Nat.eqb_refl. cbn [negb]. apply check_sizes_nonzero.
  by rewrite <- Hperm.
Qed.

Lemma acceptance_ignores_listing_order_witness :
  CorpusManager._validate_dataset (Directory (reverse corpus2)) = Ok tt.
Proof.
  apply (acceptance_ignores_listing_order corpus2 (reverse corpus2)).
  - symmetry. apply reverse_Permutation.
  - vm_compute. reflexivity.
Defined.
